(** * A shallow embedding of [server.c], the mini HTTP/1.1 file server.

    C strings are modelled by [string]: the characters that precede the
    terminating NUL.  A raw buffer, which may hold NUL bytes, is also a
    [string]; [c_str] gives the C string that starts at its first byte.
    System calls are modelled by their observable effects, collected in a
    trace of events; the file system and the bytes pending on the client
    socket are read-only parameters. *)

From Equations Require Import Equations.
From Stdlib Require Import String Ascii List ZArith Lia Bool Arith.
Import ListNotations.

Local Open Scope string_scope.
Local Open Scope Z_scope.

(** ** Characters *)

Definition NUL : ascii := "000"%char.
Definition HT : ascii := "009"%char.
Definition LF : ascii := "010"%char.
Definition VT : ascii := "011"%char.
Definition FF : ascii := "012"%char.
Definition CR : ascii := "013"%char.
Definition SP : ascii := " "%char.
Definition DOT : ascii := "."%char.

Definition CRLF : string := String CR (String LF EmptyString).

(** [isspace] in the C locale. *)
Definition isspace (c : ascii) : bool :=
  (c =? SP)%char || (c =? HT)%char || (c =? LF)%char
  || (c =? VT)%char || (c =? FF)%char || (c =? CR)%char.

(** ** The part of <string.h> the program uses *)

Module CString.

Definition strlen (s : string) : nat := String.length s.

(** The C string held by a buffer: everything before the first NUL. *)
Fixpoint c_str (buf : string) : string :=
  match buf with
  | EmptyString => EmptyString
  | String c rest => if (c =? NUL)%char then EmptyString else String c (c_str rest)
  end.

(** [strcmp]: only the sign of the result is specified by the standard. *)
Fixpoint strcmp (s1 s2 : string) : Z :=
  match s1, s2 with
  | EmptyString, EmptyString => 0
  | EmptyString, String _ _ => -1
  | String _ _, EmptyString => 1
  | String c1 r1, String c2 r2 =>
      match N.compare (N_of_ascii c1) (N_of_ascii c2) with
      | Eq => strcmp r1 r2
      | Lt => -1
      | Gt => 1
      end
  end.

(** [starts_with p s]: [p] is a prefix of [s]. *)
Fixpoint starts_with (p s : string) : bool :=
  match p, s with
  | EmptyString, _ => true
  | String _ _, EmptyString => false
  | String a p', String b s' => (a =? b)%char && starts_with p' s'
  end.

(** [strstr haystack needle]: the suffix of [haystack] that starts at the
    first occurrence of [needle], [None] for a null pointer. *)
Fixpoint strstr (haystack needle : string) : option string :=
  if starts_with needle haystack then Some haystack
  else match haystack with
       | EmptyString => None
       | String _ rest => strstr rest needle
       end.

(** [strrchr s c]: the suffix of [s] that starts at the last occurrence
    of [c], [None] for a null pointer. *)
Fixpoint strrchr (s : string) (c : ascii) : option string :=
  match s with
  | EmptyString => None
  | String a rest =>
      match strrchr rest c with
      | Some found => Some found
      | None => if (a =? c)%char then Some s else None
      end
  end.

(** [member c set]: the character occurs in the delimiter set. *)
Fixpoint member (c : ascii) (set : string) : bool :=
  match set with
  | EmptyString => false
  | String d rest => (c =? d)%char || member c rest
  end.

(** [strspn]-like and [strcspn]-like scans used by [strtok]. *)
Fixpoint skip_members (set s : string) : string :=
  match s with
  | EmptyString => EmptyString
  | String c rest => if member c set then skip_members set rest else s
  end.

Fixpoint until_member (set s : string) : string :=
  match s with
  | EmptyString => EmptyString
  | String c rest => if member c set then EmptyString else String c (until_member set rest)
  end.

(** First call of [strtok buf delim]: skip the leading delimiters, then
    return the characters up to the next delimiter; a null pointer when
    nothing but delimiters is left. *)
Definition strtok (buf delim : string) : option string :=
  match skip_members delim (c_str buf) with
  | EmptyString => None
  | String c rest => Some (until_member delim (String c rest))
  end.

End CString.
Import CString.

(** ** [snprintf] and the conversions it performs *)

Module Printf.

Fixpoint take (n : nat) (s : string) : string :=
  match n, s with
  | O, _ => EmptyString
  | S _, EmptyString => EmptyString
  | S n', String c rest => String c (take n' rest)
  end.

Fixpoint drop (n : nat) (s : string) : string :=
  match n, s with
  | O, _ => s
  | S _, EmptyString => EmptyString
  | S n', String _ rest => drop n' rest
  end.

(** [snprintf buf size ...]: at most [size - 1] characters are stored. *)
Definition snprintf (size : nat) (formatted : string) : string :=
  take (size - 1) formatted.

Definition digit (d : Z) : ascii := ascii_of_N (48 + Z.to_N d).

(** Decimal digits of a non-negative number, most significant first.
    A 64-bit value has at most 20 of them. *)
Fixpoint digits (fuel : nat) (n : Z) (acc : string) : string :=
  match fuel with
  | O => acc
  | S fuel' =>
      let acc' := String (digit (n mod 10)) acc in
      if n / 10 =? 0 then acc' else digits fuel' (n / 10) acc'
  end.

(** The conversions [%d], [%ld] and [%zu]. *)
Definition decimal (n : Z) : string :=
  if n <? 0 then String "-"%char (digits 20 (- n) EmptyString)
  else digits 20 n EmptyString.

End Printf.
Import Printf.

(** ** [get_mime_type] *)

Definition get_mime_type (filename : string) : string :=
  match strrchr filename DOT with
  | None => "text/plain"
  | Some ext =>
      if strcmp ext ".html" =? 0 then "text/html"
      else if strcmp ext ".css" =? 0 then "text/css"
      else if strcmp ext ".js" =? 0 then "application/javascript"
      else if strcmp ext ".json" =? 0 then "application/json"
      else if strcmp ext ".png" =? 0 then "image/png"
      else if (strcmp ext ".jpg" =? 0) || (strcmp ext ".jpeg" =? 0) then "image/jpeg"
      else "text/plain"
  end.

(** ** [parse_http_request] *)

Record HTTPRequest : Type := mkHTTPRequest {
  method : string;    (* char method[16]  *)
  path : string;      (* char path[256]   *)
  version : string    (* char version[16] *)
}.

Module Scanf.

(** White space directive: skip any amount of white space, also none. *)
Fixpoint skip_space (s : string) : string :=
  match s with
  | EmptyString => EmptyString
  | String c rest => if isspace c then skip_space rest else s
  end.

(** The characters a [%Ns] conversion stores, and the input it leaves:
    it stops at white space, at the end of the input, or once [width]
    characters are stored. *)
Fixpoint scan_word (width : nat) (s : string) : string * string :=
  match width, s with
  | O, _ => (EmptyString, s)
  | S _, EmptyString => (EmptyString, EmptyString)
  | S width', String c rest =>
      if isspace c then (EmptyString, s)
      else let (word, left) := scan_word width' rest in (String c word, left)
  end.

(** The conversion [%Ns]: leading white space is skipped; at the end of
    the input the conversion fails. *)
Definition conv_s (width : nat) (input : string) : option (string * string) :=
  match skip_space input with
  | EmptyString => None
  | String c rest => Some (scan_word width (String c rest))
  end.

Definition EOF : Z := -1.

(** [sscanf(input, "%15s %255s %15s", req->method, req->path, req->version)]:
    the number of fields assigned ([EOF] when the input ends before the
    first one) and the structure as the call leaves it. *)
Definition sscanf_request (input : string) (req : HTTPRequest) : Z * HTTPRequest :=
  match conv_s 15 input with
  | None => (EOF, req)
  | Some (m, input1) =>
      let req1 := mkHTTPRequest m (path req) (version req) in
      match conv_s 255 (skip_space input1) with
      | None => (1, req1)
      | Some (p, input2) =>
          let req2 := mkHTTPRequest m p (version req) in
          match conv_s 15 (skip_space input2) with
          | None => (2, req2)
          | Some (v, _) => (3, mkHTTPRequest m p v)
          end
      end
  end.

End Scanf.
Import Scanf.

(** Returns 0 on success and -1 on error, with the structure as [sscanf]
    left it. *)
Definition parse_http_request (request_line : string) (req : HTTPRequest)
  : Z * HTTPRequest :=
  let (assigned, req') := sscanf_request request_line req in
  (if assigned =? 3 then 0 else -1, req').

(** ** The environment: descriptors, files, events *)

(** The kernel never hands out a descriptor that is still open, so the
    client socket and a file opened meanwhile are told apart by type. *)
Inductive descriptor : Type :=
| Socket (n : Z)
| FileDescr (pathname : string).

(** What the program observes of an opened file: the size [fstat] reports
    and the bytes successive [read]s deliver until one returns 0 or -1. *)
Record file : Type := mkFile {
  st_size : Z;
  content : string
}.

(** [open(pathname, O_RDONLY)] succeeds exactly on the paths mapped to a file. *)
Definition filesystem : Type := string -> option file.


(** What a [read] on the client socket finds. *)
Inductive pending : Type :=
| RecvError               (* read returns -1 *)
| RecvData (bytes : string).  (* read returns the bytes, 0 of them at end of stream *)

(** The calls with an effect outside the process, in program order.
    [read] and [fstat] only obtain input and are not recorded. *)
Inductive event : Type :=
| Open (pathname : string)
| Write (fd : descriptor) (data : string)
| Close (fd : descriptor)
| Printf (line : string)
| Exit (status : Z).

Definition trace : Type := list event.

Definition BUFFER_SIZE : nat := Z.to_nat 8192.

(** [write(fd, buf, count)], assumed to transmit all [count] bytes. *)
Definition write (fd : descriptor) (buf : string) (count : nat) : trace :=
  [Write fd (take count buf)].

(** [read(client_sock, buffer, count)]: the return value and the bytes stored. *)
Definition read_socket (p : pending) (count : nat) : Z * string :=
  match p with
  | RecvError => (-1, EmptyString)
  | RecvData bytes => (Z.of_nat (strlen (take count bytes)), take count bytes)
  end.

(** ** [send_response] and [send_error] *)

Definition send_response (client_sock : descriptor) (status_code : Z)
    (status_text content_type content : string) (content_length : nat) : trace :=
  let header := snprintf 512
    ("HTTP/1.1 " ++ decimal status_code ++ " " ++ status_text ++ CRLF
     ++ "Content-Type: " ++ content_type ++ CRLF
     ++ "Content-Length: " ++ decimal (Z.of_nat content_length) ++ CRLF
     ++ "Connection: close" ++ CRLF
     ++ CRLF) in
  (write client_sock header (strlen header)
   ++ write client_sock content content_length)%list.

Definition send_error (client_sock : descriptor) (status_code : Z) (message : string)
  : trace :=
  let body := snprintf 512
    ("<html><body><h1>" ++ decimal status_code ++ " " ++ message
     ++ "</h1><p>" ++ message ++ "</p></body></html>") in
  send_response client_sock status_code message "text/html" body (strlen body).

(** ** [serve_file] *)

(** Keeps the equation between a scrutinee and the case it falls in. *)
Definition inspect {A : Type} (a : A) : {b : A | a = b} := exist _ a eq_refl.

(** The loop [while ((bytes_read = read(fd, buffer, count)) > 0)
    write(client_sock, buffer, bytes_read);] over the bytes the file still
    has to deliver; [count] is [sizeof(buffer)]. *)
Equations? stream_file (client_sock : descriptor) (count : nat) (remaining : string)
  : trace by wf (String.length remaining) lt :=
  stream_file client_sock count remaining with inspect (take count remaining) => {
    | exist _ EmptyString _ => [];
    | exist _ (String c chunk) Hread =>
        (write client_sock (String c chunk) (strlen (String c chunk))
         ++ stream_file client_sock count (drop count remaining))%list }.
Proof.
  clear stream_file.
  destruct count as [|n]; [discriminate|].
  destruct remaining as [|a rest]; [discriminate|].
  clear Hread. simpl. revert rest.
  induction n as [|n IH]; intros rest; simpl; [lia|].
  destruct rest as [|b rest']; simpl; [lia|].
  specialize (IH rest'). lia.
Qed.

Section Connection.

(** The document root as [open] sees it, the accepted socket, the peer
    address as [inet_ntoa] prints it, what the first [read] finds, and
    the bytes that happen to lie in the uninitialised [req]. *)
Variable fs : filesystem.
Variable client_sock : descriptor.
Variable client_addr : string.
Variable incoming : pending.
Variable stack_req : HTTPRequest.

Definition serve_file (filepath : string) : trace :=
  match strstr filepath ".." with
  | Some _ => send_error client_sock 403 "Forbidden"
  | None =>
      let filepath := if strcmp filepath "/" =? 0 then "/index.html" else filepath in
      let fullpath := snprintf 512 ("." ++ filepath)%string in
      (Open fullpath ::
       match fs fullpath with
       | None => send_error client_sock 404 "Not Found"
       | Some f =>
           let fd := FileDescr fullpath in
           let file_size := st_size f in
           let mime_type := get_mime_type fullpath in
           let header := snprintf 512
             ("HTTP/1.1 200 OK" ++ CRLF
              ++ "Content-Type: " ++ mime_type ++ CRLF
              ++ "Content-Length: " ++ decimal file_size ++ CRLF
              ++ "Connection: close" ++ CRLF
              ++ CRLF)%string in
           write client_sock header (strlen header)
           ++ stream_file client_sock BUFFER_SIZE (content f)
           ++ [Close fd]
       end)%list
  end.

(** ** [handle_client] *)

Definition handle_client : trace :=
  let (bytes_read, data) := read_socket incoming (BUFFER_SIZE - 1) in
  ((if bytes_read >? 0 then
      let buffer := (data ++ String NUL EmptyString)%string in
      match strtok buffer CRLF with
      | None => send_error client_sock 400 "Bad Request"
      | Some first_line =>
          let (rc, req) := parse_http_request first_line stack_req in
          if rc =? 0 then
            Printf ("[" ++ client_addr ++ "] " ++ method req ++ " " ++ path req
                    ++ String LF EmptyString)%string
            :: (if strcmp (method req) "GET" =? 0
                then serve_file (path req)
                else send_error client_sock 501 "Not Implemented")
          else send_error client_sock 400 "Bad Request"
      end
    else [])
   ++ [Close client_sock; Exit 0])%list.

End Connection.

(** ** What the peer and the kernel observe of a trace *)

Module Observe.

Definition descriptor_eqb (a b : descriptor) : bool :=
  match a, b with
  | Socket n, Socket m => (n =? m)%Z
  | FileDescr p, FileDescr q => (p =? q)%string
  | _, _ => false
  end.

(** The bytes written on [fd], in order. *)
Fixpoint output (fd : descriptor) (t : trace) : string :=
  match t with
  | [] => EmptyString
  | Write fd' data :: t' =>
      if descriptor_eqb fd fd' then (data ++ output fd t')%string else output fd t'
  | _ :: t' => output fd t'
  end.

(** How often [fd] is closed. *)
Fixpoint closes (fd : descriptor) (t : trace) : nat :=
  match t with
  | [] => O
  | Close fd' :: t' => ((if descriptor_eqb fd fd' then 1 else 0) + closes fd t')%nat
  | _ :: t' => closes fd t'
  end.

(** The path names handed to [open]. *)
Fixpoint opened (t : trace) : list string :=
  match t with
  | [] => []
  | Open p :: t' => p :: opened t'
  | _ :: t' => opened t'
  end.

Definition is_digit (c : ascii) : bool :=
  (48 <=? N_of_ascii c)%N && (N_of_ascii c <=? 57)%N.

(** The number a run of leading decimal digits denotes. *)
Fixpoint read_number (acc : Z) (s : string) : Z :=
  match s with
  | EmptyString => acc
  | String c rest =>
      if is_digit c then read_number (10 * acc + (Z.of_N (N_of_ascii c) - 48)) rest
      else acc
  end.

(** The status code of a response: the number after [HTTP/1.1 ]. *)
Definition status_code (response : string) : option Z :=
  if starts_with "HTTP/1.1 " response
  then Some (read_number 0 (drop 9 response))
  else None.

(** The value of the [Content-Length] header. *)
Definition content_length (response : string) : option Z :=
  match strstr response "Content-Length: " with
  | Some found => Some (read_number 0 (drop 16 found))
  | None => None
  end.

(** The body: what follows the first blank line. *)
Definition body (response : string) : option string :=
  match strstr response (CRLF ++ CRLF) with
  | Some found => Some (drop 4 found)
  | None => None
  end.


End Observe.
Import Observe.

(** ** The statements of the specification, in its own words *)

Module Spec.

(** [needle] occurs somewhere in [s]. *)
Definition contains (needle s : string) : Prop :=
  exists before after, s = (before ++ needle ++ after)%string.

(** Every character of [s] satisfies [p]. *)
Fixpoint all_chars (p : ascii -> bool) (s : string) : bool :=
  match s with
  | EmptyString => true
  | String c rest => p c && all_chars p rest
  end.

(** The white-space separated tokens of a line. [pieces] returns the word
    the line starts with, empty when it starts with white space, and the
    tokens after it. *)
Fixpoint pieces (s : string) : string * list string :=
  match s with
  | EmptyString => (EmptyString, [])
  | String c rest =>
      let (word, later) := pieces rest in
      if isspace c
      then (EmptyString, match word with EmptyString => later | _ => word :: later end)
      else (String c word, later)
  end.

Definition tokens (s : string) : list string :=
  let (word, later) := pieces s in
  match word with EmptyString => later | _ => word :: later end.

(** The status line and headers the Response Writer sends. *)
Definition response_head (code : Z) (text content_type : string) (length : Z) : string :=
  ("HTTP/1.1 " ++ decimal code ++ " " ++ text ++ CRLF
   ++ "Content-Type: " ++ content_type ++ CRLF
   ++ "Content-Length: " ++ decimal length ++ CRLF
   ++ "Connection: close" ++ CRLF
   ++ CRLF)%string.

(** The HTML page of the Error Responder. *)
Definition error_body (code : Z) (message : string) : string :=
  ("<html><body><h1>" ++ decimal code ++ " " ++ message
   ++ "</h1><p>" ++ message ++ "</p></body></html>")%string.

(** The two writes of an error response. *)
Definition error_response (fd : descriptor) (code : Z) (message : string) : trace :=
  [Write fd (response_head code message "text/html"
               (Z.of_nat (strlen (error_body code message))));
   Write fd (error_body code message)].

(** The MIME table, keyed by the extension without its dot. *)
Definition mime_table : list (string * string) :=
  [("html", "text/html"); ("css", "text/css"); ("js", "application/javascript");
   ("json", "application/json"); ("png", "image/png");
   ("jpg", "image/jpeg"); ("jpeg", "image/jpeg")].

Fixpoint lookup (key : string) (table : list (string * string)) : option string :=
  match table with
  | [] => None
  | (k, v) :: table' => if (key =? k)%string then Some v else lookup key table'
  end.

Definition mime_of_extension (ext : string) : string :=
  match lookup ext mime_table with
  | Some mime => mime
  | None => "text/plain"
  end.

(** The first line of the received bytes: the prefix up to the first CR
    or LF. *)
Definition first_line (received : string) : string := until_member CRLF received.


(** The path the File Server opens for a request path. *)
Definition resolve (request_path : string) : string :=
  ("." ++ (if (request_path =? "/")%string then "/index.html" else request_path))%string.

(** The status codes of the wire protocol. *)
Definition status_codes : list Z := [200; 400; 403; 404; 501].


(** The error pages the server sends. *)
Definition error_pages : list (Z * string) :=
  [(400, "Bad Request"); (403, "Forbidden"); (404, "Not Found");
   (501, "Not Implemented")].

End Spec.
Import Spec.

(** ** The state machine of the Connection Handler *)

Section Handling.

Variable fs : filesystem.
Variable sock : descriptor.
Variable addr : string.
Variable incoming : pending.
Variable stack_req : HTTPRequest.

(** The result of the first [read]. *)
Definition received : Z * string := read_socket incoming (BUFFER_SIZE - 1).

(** The line the handler hands to the parser: the token [strtok] finds in
    the buffer, if any. *)
Definition request_line : option string :=
  strtok (snd received ++ String NUL EmptyString) CRLF.

(** The request, when there is a line and it parses. *)
Definition request : option HTTPRequest :=
  match request_line with
  | None => None
  | Some line =>
      let (rc, req) := parse_http_request line stack_req in
      if rc =? 0 then Some req else None
  end.

(** The line logged for a parsed request. *)
Definition log_line (req : HTTPRequest) : event :=
  Printf ("[" ++ addr ++ "] " ++ method req ++ " " ++ path req ++ String LF EmptyString).

(** What happens between the first [read] and the final [close], by the
    state the handler passes through: the status code of the response, if
    there is one, and the events. *)
Inductive handled : option Z -> trace -> Prop :=
| Handled_nothing :
    fst received <= 0 ->
    handled None []
| Handled_bad_request :
    0 < fst received ->
    request = None ->
    handled (Some 400) (error_response sock 400 "Bad Request")
| Handled_not_implemented (req : HTTPRequest) :
    0 < fst received ->
    request = Some req ->
    method req <> "GET" ->
    handled (Some 501) (log_line req :: error_response sock 501 "Not Implemented")
| Handled_forbidden (req : HTTPRequest) :
    0 < fst received ->
    request = Some req ->
    method req = "GET" ->
    contains ".." (path req) ->
    handled (Some 403) (log_line req :: error_response sock 403 "Forbidden")
| Handled_not_found (req : HTTPRequest) :
    0 < fst received ->
    request = Some req ->
    method req = "GET" ->
    ~ contains ".." (path req) ->
    fs (resolve (path req)) = None ->
    handled (Some 404)
      (log_line req :: Open (resolve (path req))
       :: error_response sock 404 "Not Found")
| Handled_served (req : HTTPRequest) (f : file) :
    0 < fst received ->
    request = Some req ->
    method req = "GET" ->
    ~ contains ".." (path req) ->
    fs (resolve (path req)) = Some f ->
    handled (Some 200)
      (log_line req :: Open (resolve (path req))
       :: Write sock (response_head 200 "OK"
                        (get_mime_type (resolve (path req))) (st_size f))
       :: (stream_file sock BUFFER_SIZE (content f)
           ++ [Close (FileDescr (resolve (path req)))])%list).

End Handling.

(** ** Further observations of a trace *)

Module Audit.

(** The lines printed on standard output. *)
Fixpoint printed (t : trace) : list string :=
  match t with
  | [] => []
  | Printf line :: t' => line :: printed t'
  | _ :: t' => printed t'
  end.


(** A request whose fields fit the arrays of [HTTPRequest], terminator
    included. *)
Definition fits_buffers (req : HTTPRequest) : Prop :=
  (String.length (method req) < 16)%nat
  /\ (String.length (path req) < 256)%nat
  /\ (String.length (version req) < 16)%nat.

(** A non-empty word without white space. *)
Definition is_word (s : string) : Prop :=
  s <> EmptyString /\ all_chars (fun c => negb (isspace c)) s = true.

End Audit.
Import Audit.

(** ** Decidable conditions for stepping over a known prefix *)

Module Prefix.




End Prefix.
Import Prefix.

(** * Proofs *)

(** ** Strings *)

Section StringFacts.

Lemma append_nil_r (s : string) : (s ++ EmptyString)%string = s.
Proof. induction s as [|c s IH]; simpl; [reflexivity | now rewrite IH]. Qed.

Lemma append_assoc (a b c : string) : ((a ++ b) ++ c)%string = (a ++ (b ++ c))%string.
Proof. induction a as [|x a IH]; simpl; [reflexivity | now rewrite IH]. Qed.

Lemma length_append (a b : string) :
  String.length (a ++ b) = (String.length a + String.length b)%nat.
Proof. induction a as [|x a IH]; simpl; [reflexivity | now rewrite IH]. Qed.

Lemma take_all (n : nat) (s : string) :
  (String.length s <= n)%nat -> take n s = s.
Proof.
  revert n; induction s as [|c s IH]; intros [|n] H; simpl in *; try reflexivity; try lia.
  rewrite IH by lia. reflexivity.
Qed.

Lemma take_drop (n : nat) (s : string) : (take n s ++ drop n s)%string = s.
Proof.
  revert s; induction n as [|n IH]; intros [|c s]; simpl; try reflexivity.
  now rewrite IH.
Qed.

Lemma length_take_le (n : nat) (s : string) : (String.length (take n s) <= n)%nat.
Proof.
  revert s; induction n as [|n IH]; intros [|c s]; simpl; try lia.
  specialize (IH s). lia.
Qed.

Lemma take_length_append (a b : string) : take (String.length a) (a ++ b) = a.
Proof. induction a as [|x a IH]; simpl; [now destruct b | now rewrite IH]. Qed.


Lemma snprintf_fits (size : nat) (s : string) :
  (String.length s < size)%nat -> snprintf size s = s.
Proof. intros H. unfold snprintf. apply take_all. lia. Qed.

Lemma strcmp_refl (s : string) : strcmp s s = 0.
Proof.
  induction s as [|c s IH]; simpl; [reflexivity|].
  now rewrite N.compare_refl.
Qed.

Lemma strcmp_zero (a b : string) : strcmp a b = 0 -> a = b.
Proof.
  revert b; induction a as [|x a IH]; intros [|y b]; simpl; try discriminate; auto.
  destruct (N.compare_spec (N_of_ascii x) (N_of_ascii y)) as [E|L|G]; try discriminate.
  intros H. apply IH in H. subst b.
  rewrite <- (ascii_N_embedding x), <- (ascii_N_embedding y), E. reflexivity.
Qed.

(** [strcmp(a, b) == 0] is string equality. *)
Lemma strcmp_eqb (a b : string) : (strcmp a b =? 0) = (a =? b)%string.
Proof.
  destruct (String.eqb_spec a b) as [->|N].
  - now rewrite strcmp_refl.
  - apply Z.eqb_neq. intros H. apply N. now apply strcmp_zero.
Qed.

Lemma strrchr_absent (c : ascii) (s : string) :
  member c s = false -> strrchr s c = None.
Proof.
  induction s as [|a s IH]; simpl; [reflexivity|].
  intros H. apply orb_false_iff in H. destruct H as [Hc Hs].
  rewrite (IH Hs), Ascii.eqb_sym, Hc. reflexivity.
Qed.

Lemma strrchr_last (c : ascii) (stem ext : string) :
  member c ext = false ->
  strrchr (stem ++ String c ext) c = Some (String c ext).
Proof.
  intros H. induction stem as [|a stem IH]; simpl.
  - now rewrite (strrchr_absent _ _ H), Ascii.eqb_refl.
  - simpl in IH. now rewrite IH.
Qed.

End StringFacts.

(** ** The MIME resolver *)

Lemma get_mime_type_extension (stem ext : string) :
  member DOT ext = false ->
  get_mime_type (stem ++ String DOT ext) = mime_of_extension ext.
Proof.
  intros H. unfold get_mime_type. rewrite (strrchr_last DOT stem ext H).
  rewrite !strcmp_eqb. unfold mime_of_extension, mime_table, lookup.
  change (String DOT ext =? ".html")%string with (ext =? "html")%string.
  change (String DOT ext =? ".css")%string with (ext =? "css")%string.
  change (String DOT ext =? ".js")%string with (ext =? "js")%string.
  change (String DOT ext =? ".json")%string with (ext =? "json")%string.
  change (String DOT ext =? ".png")%string with (ext =? "png")%string.
  change (String DOT ext =? ".jpg")%string with (ext =? "jpg")%string.
  change (String DOT ext =? ".jpeg")%string with (ext =? "jpeg")%string.
  destruct (ext =? "html")%string; [reflexivity|].
  destruct (ext =? "css")%string; [reflexivity|].
  destruct (ext =? "js")%string; [reflexivity|].
  destruct (ext =? "json")%string; [reflexivity|].
  destruct (ext =? "png")%string; [reflexivity|].
  destruct (ext =? "jpg")%string; [reflexivity|].
  destruct (ext =? "jpeg")%string; reflexivity.
Qed.

(** C9. The MIME resolver is a function of the path alone: a path whose
    last dot is followed by [ext] gets the type that the fixed table gives
    for [ext], compared case-sensitively, and [text/plain] when the table
    has no such entry; a path without a dot gets [text/plain]. The four
    sample paths of the specification resolve as it says. *)
Theorem get_mime_type_table :
  (forall stem ext : string,
      member DOT ext = false ->
      get_mime_type (stem ++ String DOT ext) = mime_of_extension ext)
  /\ (forall filename : string,
      member DOT filename = false -> get_mime_type filename = "text/plain")
  /\ get_mime_type "a.html" = "text/html"
  /\ get_mime_type "a.jpeg" = "image/jpeg"
  /\ get_mime_type "a.xyz" = "text/plain"
  /\ get_mime_type "noext" = "text/plain"
  /\ get_mime_type "a.HTML" = "text/plain".
Proof.
  split; [exact get_mime_type_extension|].
  split; [|repeat split; reflexivity].
  intros filename H. unfold get_mime_type.
  now rewrite (strrchr_absent DOT filename H).
Qed.

Lemma get_mime_type_table_witness :
  member DOT "png" = false
  /\ get_mime_type ("img/logo" ++ String DOT "png") = mime_of_extension "png"
  /\ member DOT "Makefile" = false
  /\ get_mime_type "Makefile" = "text/plain".
Proof.
  split; [reflexivity|].
  split; [apply (proj1 get_mime_type_table); reflexivity|].
  split; [reflexivity|].
  apply (proj1 (proj2 get_mime_type_table)); reflexivity.
Defined.

(** ** The request parser *)

Section ParserFacts.

Lemma tokens_space (c : ascii) (rest : string) :
  isspace c = true -> tokens (String c rest) = tokens rest.
Proof.
  intros H. unfold tokens. simpl. destruct (pieces rest) as [word later].
  now rewrite H.
Qed.

Lemma tokens_skip_space (s : string) : tokens (skip_space s) = tokens s.
Proof.
  induction s as [|c s IH]; simpl; [reflexivity|].
  destruct (isspace c) eqn:E; [|reflexivity].
  now rewrite IH, (tokens_space c s E).
Qed.

(** A conversion wide enough for the word the input starts with stores
    that word and leaves the tokens behind it. *)
Lemma scan_word_pieces (s : string) :
  forall (width : nat) (word : string) (later : list string),
    pieces s = (word, later) ->
    (String.length word <= width)%nat ->
    exists left, scan_word width s = (word, left) /\ tokens left = later.
Proof.
  induction s as [|c s IH]; intros width word later Hp Hlen; simpl in Hp.
  - inversion Hp; subst. exists EmptyString. now destruct width.
  - destruct (pieces s) as [word' later'] eqn:Eq.
    destruct (isspace c) eqn:Ec; injection Hp as <- <-.
    + exists (String c s). split.
      * destruct width; simpl; [reflexivity | now rewrite Ec].
      * rewrite (tokens_space c s Ec). unfold tokens. now rewrite Eq.
    + destruct width as [|width]; simpl in Hlen; [lia|].
      destruct (IH width word' later' eq_refl ltac:(lia)) as [left [Hs Ht]].
      exists left. simpl. now rewrite Ec, Hs.
Qed.

Lemma conv_s_none (width : nat) (s : string) :
  tokens s = [] -> conv_s width s = None.
Proof.
  unfold conv_s. induction s as [|c s IH]; simpl; [reflexivity|].
  destruct (isspace c) eqn:Ec.
  - rewrite (tokens_space c s Ec). exact IH.
  - unfold tokens. simpl. destruct (pieces s). rewrite Ec. discriminate.
Qed.

Lemma conv_s_token (width : nat) (s t : string) (ts : list string) :
  tokens s = t :: ts ->
  (String.length t <= width)%nat ->
  exists left, conv_s width s = Some (t, left) /\ tokens left = ts.
Proof.
  unfold conv_s. induction s as [|c s IH]; simpl; [discriminate|].
  destruct (isspace c) eqn:Ec.
  - rewrite (tokens_space c s Ec). exact IH.
  - intros Ht Hlen.
    assert (Hp : pieces (String c s) = (t, ts)).
    { unfold tokens in Ht. simpl in *. destruct (pieces s) as [w l].
      rewrite Ec in *. now inversion Ht. }
    destruct (scan_word_pieces (String c s) width t ts Hp Hlen) as [left [Hs Hl]].
    exists left. now rewrite Hs.
Qed.

(** When the first three tokens fit their fields, they are the request. *)
Lemma parse_http_request_fitting (line M P V : string) (more : list string)
    (req : HTTPRequest) :
  tokens line = M :: P :: V :: more ->
  (String.length M <= 15)%nat ->
  (String.length P <= 255)%nat ->
  (String.length V <= 15)%nat ->
  parse_http_request line req = (0, mkHTTPRequest M P V).
Proof.
  intros Ht HM HP HV. unfold parse_http_request, sscanf_request.
  destruct (conv_s_token 15 line M _ Ht HM) as [l1 [-> T1]].
  rewrite <- tokens_skip_space in T1.
  destruct (conv_s_token 255 _ P _ T1 HP) as [l2 [-> T2]].
  rewrite <- tokens_skip_space in T2.
  destruct (conv_s_token 15 _ V _ T2 HV) as [l3 [-> _]].
  reflexivity.
Qed.

(** A line of fewer than three tokens, each fitting its field, is
    rejected. *)
Lemma parse_http_request_too_few (line : string) (req : HTTPRequest) :
  (List.length (tokens line) < 3)%nat ->
  (String.length (nth 0 (tokens line) EmptyString) <= 15)%nat ->
  (String.length (nth 1 (tokens line) EmptyString) <= 255)%nat ->
  fst (parse_http_request line req) = -1.
Proof.
  intros Hn H0 H1. unfold parse_http_request, sscanf_request.
  destruct (tokens line) as [|M [|P [|V more]]] eqn:Ht; simpl in *; try lia.
  - now rewrite (conv_s_none 15 line Ht).
  - destruct (conv_s_token 15 line M _ Ht H0) as [l1 [-> T1]].
    rewrite <- tokens_skip_space in T1.
    now rewrite (conv_s_none 255 _ T1).
  - destruct (conv_s_token 15 line M _ Ht H0) as [l1 [-> T1]].
    rewrite <- tokens_skip_space in T1.
    destruct (conv_s_token 255 _ P _ T1 H1) as [l2 [-> T2]].
    rewrite <- tokens_skip_space in T2.
    now rewrite (conv_s_none 15 _ T2).
Qed.

End ParserFacts.

(** C3. The line [GETGETGETGETGETGET /index.html] has two tokens, yet the
    parser reports success: the first conversion stops after 15 characters
    and the next two take the rest of the first token and the second
    token. *)
Theorem parse_http_request_accepts_two_tokens (req : HTTPRequest) :
  tokens "GETGETGETGETGETGET /index.html" = ["GETGETGETGETGETGET"; "/index.html"]
  /\ parse_http_request "GETGETGETGETGETGET /index.html" req
     = (0, mkHTTPRequest "GETGETGETGETGET" "GET" "/index.html").
Proof. split; reflexivity. Qed.

(** C8. On [GETGETGETGETGETGET /index.html HTTP/1.1] the method is the
    first token cut at 15 characters, but the path is the remainder of the
    first token and the version is the second token: the second and third
    tokens are not the path and the version. *)
Theorem parse_http_request_spills_long_token (req : HTTPRequest) :
  let line := "GETGETGETGETGETGET /index.html HTTP/1.1" in
  tokens line = ["GETGETGETGETGETGET"; "/index.html"; "HTTP/1.1"]
  /\ parse_http_request line req
     = (0, mkHTTPRequest (take 15 "GETGETGETGETGETGET")
                         (drop 15 "GETGETGETGETGETGET")
                         "/index.html")
  /\ path (snd (parse_http_request line req)) <> take 255 "/index.html"
  /\ version (snd (parse_http_request line req)) <> take 15 "HTTP/1.1".
Proof. repeat split; try reflexivity; discriminate. Qed.

(** ** Substring search *)

Section SearchFacts.

Lemma starts_with_append (p s : string) : starts_with p (p ++ s) = true.
Proof.
  induction p as [|c p IH]; simpl; [reflexivity|].
  now rewrite Ascii.eqb_refl.
Qed.

Lemma starts_with_split (p s : string) :
  starts_with p s = true -> exists after, s = (p ++ after)%string.
Proof.
  revert s; induction p as [|c p IH]; intros s H; simpl in *.
  - now exists s.
  - destruct s as [|d s]; [discriminate|].
    apply andb_true_iff in H. destruct H as [Hc Hs].
    apply Ascii.eqb_eq in Hc. subst d.
    destruct (IH s Hs) as [after ->]. now exists after.
Qed.

Lemma strstr_unfold (haystack needle : string) :
  strstr haystack needle
  = if starts_with needle haystack then Some haystack
    else match haystack with
         | EmptyString => None
         | String _ rest => strstr rest needle
         end.
Proof. destruct haystack; reflexivity. Qed.

Lemma strstr_found (needle before after : string) :
  exists found, strstr (before ++ needle ++ after) needle = Some found.
Proof.
  induction before as [|c before IH]; simpl.
  - exists (needle ++ after)%string.
    now rewrite strstr_unfold, starts_with_append.
  - destruct (starts_with needle (String c (before ++ needle ++ after)));
      [eexists; reflexivity | exact IH].
Qed.

Lemma strstr_contains (needle s found : string) :
  strstr s needle = Some found -> contains needle s.
Proof.
  induction s as [|c s IH]; simpl.
  - destruct (starts_with needle EmptyString) eqn:E; [|discriminate].
    intros _. destruct (starts_with_split _ _ E) as [after ->].
    now exists EmptyString, after.
  - destruct (starts_with needle (String c s)) eqn:E.
    + intros _. destruct (starts_with_split _ _ E) as [after ->].
      now exists EmptyString, after.
    + intros H. destruct (IH H) as [before [after ->]].
      now exists (String c before), after.
Qed.

(** [strstr] returns a null pointer exactly when the needle does not occur. *)
Lemma strstr_null (needle s : string) :
  strstr s needle = None <-> ~ contains needle s.
Proof.
  split.
  - intros H [before [after ->]].
    destruct (strstr_found needle before after) as [found Hf]. congruence.
  - intros H. destruct (strstr s needle) as [found|] eqn:E; [|reflexivity].
    exfalso. apply H. exact (strstr_contains _ _ _ E).
Qed.

End SearchFacts.

(** ** Observations of traces *)

Section TraceFacts.

Lemma descriptor_eqb_refl (fd : descriptor) : descriptor_eqb fd fd = true.
Proof. destruct fd; simpl; [apply Z.eqb_refl | apply String.eqb_refl]. Qed.

Lemma output_app (fd : descriptor) (t1 t2 : trace) :
  output fd (t1 ++ t2)%list = (output fd t1 ++ output fd t2)%string.
Proof.
  induction t1 as [|e t1 IH]; simpl; [reflexivity|].
  destruct e; try exact IH.
  destruct (descriptor_eqb fd fd0); [|exact IH].
  now rewrite IH, append_assoc.
Qed.

Lemma closes_app (fd : descriptor) (t1 t2 : trace) :
  closes fd (t1 ++ t2)%list = (closes fd t1 + closes fd t2)%nat.
Proof.
  induction t1 as [|e t1 IH]; simpl; [reflexivity|].
  destruct e; try exact IH. rewrite IH. lia.
Qed.

Lemma opened_app (t1 t2 : trace) :
  opened (t1 ++ t2)%list = (opened t1 ++ opened t2)%list.
Proof.
  induction t1 as [|e t1 IH]; simpl; [reflexivity|].
  destruct e; try exact IH. simpl. now rewrite IH.
Qed.

Lemma output_write_cons (fd : descriptor) (data : string) (t : trace) :
  output fd (Write fd data :: t) = (data ++ output fd t)%string.
Proof. simpl. now rewrite descriptor_eqb_refl. Qed.

Lemma output_open_cons (fd : descriptor) (pathname : string) (t : trace) :
  output fd (Open pathname :: t) = output fd t.
Proof. reflexivity. Qed.

Lemma output_printf_cons (fd : descriptor) (line : string) (t : trace) :
  output fd (Printf line :: t) = output fd t.
Proof. reflexivity. Qed.

Lemma output_error_response (fd : descriptor) (code : Z) (message : string) :
  output fd (error_response fd code message)
  = (response_head code message "text/html"
       (Z.of_nat (strlen (error_body code message)))
     ++ error_body code message)%string.
Proof.
  unfold error_response. rewrite !output_write_cons.
  cbn [output]. now rewrite append_nil_r.
Qed.

End TraceFacts.

(** ** The conversions of [printf] *)

Section PrintfFacts.

Lemma length_digits (fuel : nat) :
  forall (n : Z) (acc : string),
    (String.length (digits fuel n acc) <= fuel + String.length acc)%nat.
Proof.
  induction fuel as [|fuel IH]; intros n acc; cbn [digits]; [lia|].
  destruct (n / 10 =? 0); [cbn [String.length]; lia|].
  specialize (IH (n / 10) (String (digit (n mod 10)) acc)).
  cbn [String.length] in IH. lia.
Qed.

Lemma length_decimal (n : Z) : (String.length (decimal n) <= 21)%nat.
Proof.
  unfold decimal. destruct (n <? 0).
  - pose proof (length_digits 20 (- n) EmptyString) as H.
    cbn [String.length] in *. lia.
  - pose proof (length_digits 20 n EmptyString) as H.
    cbn [String.length] in *. lia.
Qed.

End PrintfFacts.

(** ** The error responder *)

(** A message of at most 200 characters is embedded as it is: neither
    the page nor the header block is cut by its 512-byte buffer. *)
Lemma send_error_verbatim (fd : descriptor) (code : Z) (message : string) :
  (String.length message <= 200)%nat ->
  send_error fd code message = error_response fd code message.
Proof.
  intros Hm. unfold send_error, send_response, write, error_response.
  pose proof (length_decimal code) as Hc.
  assert (Hbody : snprintf 512 (error_body code message) = error_body code message).
  { apply snprintf_fits. unfold error_body. rewrite !length_append. simpl. lia. }
  unfold error_body in Hbody |- *. rewrite Hbody.
  fold (error_body code message).
  assert (Hb : (String.length (error_body code message) <= 464)%nat).
  { unfold error_body. rewrite !length_append. simpl. lia. }
  unfold strlen. rewrite (take_all _ (error_body code message)) by lia.
  pose proof (length_decimal (Z.of_nat (String.length (error_body code message)))) as Hl.
  fold (response_head code message "text/html"
          (Z.of_nat (String.length (error_body code message)))).
  rewrite snprintf_fits.
  - rewrite take_all by lia. reflexivity.
  - unfold response_head. rewrite !length_append.
    generalize dependent (decimal (Z.of_nat (String.length (error_body code message)))).
    intros size Hsize. simpl. lia.
Qed.

(** ** The file server *)

Section StreamFacts.

Lemma take_empty (count : nat) (s : string) :
  (0 < count)%nat -> take count s = EmptyString -> s = EmptyString.
Proof.
  destruct count as [|n]; [lia|]. destruct s; [reflexivity | discriminate].
Qed.

Lemma output_write (fd : descriptor) (buf : string) :
  output fd (write fd buf (strlen buf)) = buf.
Proof.
  unfold write, strlen. simpl. rewrite descriptor_eqb_refl, append_nil_r.
  apply take_all. lia.
Qed.

(** The loop writes the bytes of the file, all of them and in order. *)
Lemma output_stream_file (sock : descriptor) (count : nat) (data : string) :
  (0 < count)%nat ->
  output sock (stream_file sock count data) = data.
Proof.
  intros Hc. funelim (stream_file sock count data).
  - simpl. symmetry. now apply (take_empty count).
  - rewrite output_app, output_write.
    match goal with IH : _ -> output _ _ = _ |- _ => rewrite (IH Hc) end.
    rewrite <- Hread. apply take_drop.
Qed.

(** The loop touches no descriptor but the socket it writes on. *)
Lemma closes_stream_file (fd sock : descriptor) (count : nat) (data : string) :
  closes fd (stream_file sock count data) = O.
Proof.
  funelim (stream_file sock count data); [reflexivity|].
  rewrite closes_app. unfold write. simpl.
  auto.
Qed.

Lemma opened_stream_file (sock : descriptor) (count : nat) (data : string) :
  opened (stream_file sock count data) = [].
Proof.
  funelim (stream_file sock count data); [reflexivity|].
  rewrite opened_app. unfold write. simpl.
  auto.
Qed.

Lemma BUFFER_SIZE_positive : (0 < BUFFER_SIZE)%nat.
Proof. unfold BUFFER_SIZE. lia. Qed.

End StreamFacts.

Section ServeFileFacts.

Variable fs : filesystem.
Variable sock : descriptor.

Lemma length_get_mime_type (filename : string) :
  (String.length (get_mime_type filename) <= 22)%nat.
Proof.
  unfold get_mime_type. destruct (strrchr filename DOT) as [ext|]; [|simpl; lia].
  repeat match goal with
         | |- context [if ?b then _ else _] => destruct b
         end; simpl; lia.
Qed.

(** The path handed to [open]: the 512-byte buffer never cuts the path of
    a request. *)
Lemma fullpath_resolve (filepath : string) :
  (String.length filepath <= 255)%nat ->
  snprintf 512 ("." ++ (if strcmp filepath "/" =? 0 then "/index.html" else filepath))
  = resolve filepath.
Proof.
  intros H. unfold resolve. rewrite strcmp_eqb. apply snprintf_fits.
  destruct (filepath =? "/")%string; simpl; lia.
Qed.

(** The header block of a served file is never cut either. *)
Lemma file_header_fits (mime : string) (size : Z) :
  (String.length mime <= 22)%nat ->
  snprintf 512
    ("HTTP/1.1 200 OK" ++ CRLF ++ "Content-Type: " ++ mime ++ CRLF
     ++ "Content-Length: " ++ decimal size ++ CRLF
     ++ "Connection: close" ++ CRLF ++ CRLF)
  = response_head 200 "OK" mime size.
Proof.
  intros H. pose proof (length_decimal size) as Hd.
  rewrite snprintf_fits; [reflexivity|].
  rewrite !length_append. generalize dependent (decimal size). intros d Hd.
  simpl. lia.
Qed.

Lemma serve_file_forbidden (filepath : string) :
  contains ".." filepath ->
  serve_file fs sock filepath = error_response sock 403 "Forbidden".
Proof.
  intros H. unfold serve_file.
  destruct (strstr filepath "..") as [found|] eqn:E.
  - apply send_error_verbatim. simpl. lia.
  - apply strstr_null in E. contradiction.
Qed.

Lemma serve_file_not_found (filepath : string) :
  ~ contains ".." filepath ->
  (String.length filepath <= 255)%nat ->
  fs (resolve filepath) = None ->
  serve_file fs sock filepath
  = Open (resolve filepath) :: error_response sock 404 "Not Found".
Proof.
  intros Hc Hl Hf. unfold serve_file.
  apply strstr_null in Hc. rewrite Hc.
  rewrite (fullpath_resolve filepath Hl), Hf.
  rewrite send_error_verbatim by (simpl; lia). reflexivity.
Qed.

Lemma serve_file_found (filepath : string) (f : file) :
  ~ contains ".." filepath ->
  (String.length filepath <= 255)%nat ->
  fs (resolve filepath) = Some f ->
  serve_file fs sock filepath
  = Open (resolve filepath)
    :: Write sock (response_head 200 "OK" (get_mime_type (resolve filepath)) (st_size f))
    :: (stream_file sock BUFFER_SIZE (content f)
        ++ [Close (FileDescr (resolve filepath))])%list.
Proof.
  intros Hc Hl Hf. unfold serve_file.
  apply strstr_null in Hc. rewrite Hc.
  rewrite (fullpath_resolve filepath Hl), Hf.
  rewrite (file_header_fits _ _ (length_get_mime_type (resolve filepath))).
  unfold write, strlen. rewrite take_all by lia. reflexivity.
Qed.

End ServeFileFacts.

(** C1. A request path in which [..] occurs anywhere gets the 403 page and
    nothing else: the trace is the error response whatever the file system
    holds, no path is handed to [open], and the status code on the wire is
    403.  The check comes first, so neither the default document nor the
    existence of the target plays a part. *)
Theorem serve_file_traversal_forbidden
    (fs : filesystem) (sock : descriptor) (filepath : string) :
  contains ".." filepath ->
  serve_file fs sock filepath = error_response sock 403 "Forbidden"
  /\ opened (serve_file fs sock filepath) = []
  /\ status_code (output sock (serve_file fs sock filepath)) = Some 403.
Proof.
  intros H. rewrite (serve_file_forbidden fs sock filepath H).
  split; [reflexivity|]. split; [reflexivity|].
  rewrite output_error_response. reflexivity.
Qed.

Lemma serve_file_traversal_forbidden_witness :
  let fs : filesystem := fun _ => Some (mkFile 4 "root") in
  contains ".." "/../etc/passwd"
  /\ serve_file fs (Socket 4) "/../etc/passwd" = error_response (Socket 4) 403 "Forbidden"
  /\ opened (serve_file fs (Socket 4) "/../etc/passwd") = []
  /\ status_code (output (Socket 4) (serve_file fs (Socket 4) "/../etc/passwd")) = Some 403.
Proof.
  intros fs.
  assert (H : contains ".." "/../etc/passwd") by (exists "/", "/etc/passwd"; reflexivity).
  split; [exact H|].
  exact (serve_file_traversal_forbidden fs (Socket 4) "/../etc/passwd" H).
Defined.



(** ** Reading a response back *)

Section ReadBackFacts.








End ReadBackFacts.

(** ** Framing of the responses *)

Section FramingFacts.







End FramingFacts.

(** ** The connection handler *)

Section HandlerFacts.

Lemma length_scan_word (width : nat) :
  forall (s word left : string),
    scan_word width s = (word, left) -> (String.length word <= width)%nat.
Proof.
  induction width as [|width IH]; intros s word left H; simpl in H.
  - injection H as <- _. simpl. lia.
  - destruct s as [|c s]; [injection H as <- _; simpl; lia|].
    destruct (isspace c); [injection H as <- _; simpl; lia|].
    destruct (scan_word width s) as [w l] eqn:E.
    injection H as <- _. simpl. specialize (IH s w l E). lia.
Qed.

Lemma length_conv_s (width : nat) (s word left : string) :
  conv_s width s = Some (word, left) -> (String.length word <= width)%nat.
Proof.
  unfold conv_s. destruct (skip_space s) as [|c rest]; [discriminate|].
  intros [= H]. exact (length_scan_word width _ _ _ H).
Qed.

(** A parsed request respects the sizes of its fields. *)
Lemma parse_http_request_limits (line : string) (req0 req : HTTPRequest) :
  parse_http_request line req0 = (0, req) ->
  (String.length (method req) <= 15)%nat
  /\ (String.length (path req) <= 255)%nat
  /\ (String.length (version req) <= 15)%nat.
Proof.
  unfold parse_http_request, sscanf_request.
  destruct (conv_s 15 line) as [[m l1]|] eqn:E1; [|discriminate].
  destruct (conv_s 255 (skip_space l1)) as [[p l2]|] eqn:E2; [|discriminate].
  destruct (conv_s 15 (skip_space l2)) as [[v l3]|] eqn:E3; [|discriminate].
  intros [= <-]. simpl.
  repeat split; eapply length_conv_s; eassumption.
Qed.

Variable fs : filesystem.
Variable sock : descriptor.
Variable addr : string.
Variable incoming : pending.
Variable stack_req : HTTPRequest.

(** Every run of the handler is one of the six paths of the state
    machine, followed by the [close] of the socket and [exit(0)]. *)
Lemma handle_client_handled :
  exists (status : option Z) (t : trace),
    handled fs sock addr incoming stack_req status t
    /\ handle_client fs sock addr incoming stack_req = (t ++ [Close sock; Exit 0])%list.
Proof.
  unfold handle_client.
  pose proof (eq_refl : received incoming = read_socket incoming (BUFFER_SIZE - 1)) as Hr.
  destruct (read_socket incoming (BUFFER_SIZE - 1)) as [bytes_read data] eqn:Er.
  destruct (bytes_read >? 0) eqn:Epos.
  2:{ exists None, []. split; [|reflexivity]. apply Handled_nothing. rewrite Hr. simpl. lia. }
  assert (Hpos : 0 < fst (received incoming)) by (rewrite Hr; simpl; lia).
  pose proof (eq_refl : request incoming stack_req = request incoming stack_req) as Hq.
  unfold request at 2, request_line in Hq. rewrite Hr in Hq. cbn [snd] in Hq.
  destruct (strtok (data ++ String NUL EmptyString) CRLF) as [line|].
  2:{ do 2 eexists. split; [apply Handled_bad_request; assumption|].
      rewrite send_error_verbatim by (simpl; lia). reflexivity. }
  destruct (parse_http_request line stack_req) as [rc req] eqn:Ep.
  destruct (rc =? 0) eqn:Erc.
  2:{ do 2 eexists. split; [apply Handled_bad_request; assumption|].
      rewrite send_error_verbatim by (simpl; lia). reflexivity. }
  apply Z.eqb_eq in Erc. subst rc.
  destruct (parse_http_request_limits _ _ _ Ep) as [_ [Hpath _]].
  rewrite strcmp_eqb.
  destruct (String.eqb_spec (method req) "GET") as [Hget|Hget].
  2:{ do 2 eexists. split; [apply (Handled_not_implemented _ _ _ _ _ req); assumption|].
      rewrite send_error_verbatim by (simpl; lia). reflexivity. }
  destruct (strstr (path req) "..") as [found|] eqn:Edots.
  - apply strstr_contains in Edots.
    do 2 eexists. split; [apply (Handled_forbidden _ _ _ _ _ req); assumption|].
    rewrite (serve_file_forbidden fs sock _ Edots). reflexivity.
  - apply strstr_null in Edots.
    destruct (fs (resolve (path req))) as [f|] eqn:Ef.
    + do 2 eexists. split; [apply (Handled_served _ _ _ _ _ req f); assumption|].
      rewrite (serve_file_found fs sock _ f Edots Hpath Ef).
      cbn [app]. rewrite <- app_assoc. reflexivity.
    + do 2 eexists. split; [apply (Handled_not_found _ _ _ _ _ req); assumption|].
      rewrite (serve_file_not_found fs sock _ Edots Hpath Ef). reflexivity.
Qed.

End HandlerFacts.

Section HandledFacts.

Variable fs : filesystem.
Variable sock : descriptor.
Variable addr : string.
Variable incoming : pending.
Variable stack_req : HTTPRequest.

Lemma output_served (line pathname head : string) (f : file) (fd : descriptor) :
  output sock
    (Printf line :: Open pathname :: Write sock head
     :: (stream_file sock BUFFER_SIZE (content f) ++ [Close fd])%list)
  = (head ++ content f)%string.
Proof.
  rewrite output_printf_cons, output_open_cons, output_write_cons, output_app.
  rewrite (output_stream_file _ _ _ BUFFER_SIZE_positive).
  cbn [output]. now rewrite append_nil_r.
Qed.

(** The bytes on the socket: nothing, one of the four error pages, or the
    header block of a 200 response followed by the bytes of a file. *)
Lemma handled_output (status : option Z) (t : trace) :
  handled fs sock addr incoming stack_req status t ->
  (status = None /\ output sock t = EmptyString)
  \/ (exists code message,
        In (code, message) error_pages /\ status = Some code
        /\ output sock t
           = (response_head code message "text/html"
                (Z.of_nat (strlen (error_body code message)))
              ++ error_body code message)%string)
  \/ (exists req f,
        fs (resolve (path req)) = Some f /\ status = Some 200
        /\ output sock t
           = (response_head 200 "OK" (get_mime_type (resolve (path req))) (st_size f)
              ++ content f)%string).
Proof.
  intros H. destruct H.
  - left. split; reflexivity.
  - right; left. exists 400, "Bad Request".
    split; [simpl; tauto|]. split; [reflexivity|]. apply output_error_response.
  - right; left. exists 501, "Not Implemented".
    split; [simpl; tauto|]. split; [reflexivity|].
    unfold log_line. rewrite output_printf_cons. apply output_error_response.
  - right; left. exists 403, "Forbidden".
    split; [simpl; tauto|]. split; [reflexivity|].
    unfold log_line. rewrite output_printf_cons. apply output_error_response.
  - right; left. exists 404, "Not Found".
    split; [simpl; tauto|]. split; [reflexivity|].
    unfold log_line. rewrite output_printf_cons, output_open_cons.
    apply output_error_response.
  - right; right. exists req, f. split; [assumption|]. split; [reflexivity|].
    unfold log_line. apply output_served.
Qed.

(** The four error pages read back as they were meant. *)
Lemma read_back_error_page (code : Z) (message : string) :
  In (code, message) error_pages ->
  let response :=
    (response_head code message "text/html"
       (Z.of_nat (strlen (error_body code message)))
     ++ error_body code message)%string in
  status_code response = Some code
  /\ content_length response = Some (Z.of_nat (strlen (error_body code message)))
  /\ body response = Some (error_body code message).
Proof.
  intros H. unfold error_pages in H. simpl in H.
  repeat (destruct H as [[= <- <-] | H]; [vm_compute; repeat split; reflexivity|]).
  contradiction.
Qed.


Lemma status_code_file_response (mime : string) (size : Z) (data : string) :
  status_code (response_head 200 "OK" mime size ++ data) = Some 200.
Proof. reflexivity. Qed.

Lemma handled_status_code (status : option Z) (t : trace) :
  handled fs sock addr incoming stack_req status t -> status_code (output sock t) = status.
Proof.
  intros H. destruct (handled_output status t H)
    as [[-> ->] | [(code & message & Hin & -> & ->) | (req & f & Hf & -> & ->)]].
  - reflexivity.
  - apply (read_back_error_page code message Hin).
  - apply status_code_file_response.
Qed.

Lemma handled_status_codes (status : option Z) (t : trace) :
  handled fs sock addr incoming stack_req status t ->
  match status with
  | None => t = []
  | Some code => In code status_codes
  end.
Proof. intros H. destruct H; simpl; tauto. Qed.

End HandledFacts.

Section ClosingFacts.

Variable fs : filesystem.
Variable n : Z.
Variable addr : string.
Variable incoming : pending.
Variable stack_req : HTTPRequest.

Lemma closes_error_response (fd fd' : descriptor) (code : Z) (message : string)
    (before : trace) :
  closes fd before = O ->
  closes fd (before ++ error_response fd' code message)%list = O.
Proof. intros H. rewrite closes_app, H. reflexivity. Qed.

Lemma closes_served (e1 e2 e3 : event) (sock : descriptor) (count : nat)
    (data pathname : string) :
  closes (Socket n) [e1; e2; e3] = O ->
  closes (Socket n)
    (e1 :: e2 :: e3 :: (stream_file sock count data ++ [Close (FileDescr pathname)])%list)
  = O.
Proof.
  intros H.
  change (e1 :: e2 :: e3 :: (stream_file sock count data ++ [Close (FileDescr pathname)]))%list
    with ([e1; e2; e3] ++ (stream_file sock count data ++ [Close (FileDescr pathname)]))%list.
  rewrite !closes_app, H, closes_stream_file. reflexivity.
Qed.

(** Nothing before the final [close] closes the socket. *)
Lemma handled_closes (status : option Z) (t : trace) :
  handled fs (Socket n) addr incoming stack_req status t ->
  closes (Socket n) t = O.
Proof.
  intros H. destruct H.
  - reflexivity.
  - apply (closes_error_response _ _ _ _ []). reflexivity.
  - apply (closes_error_response _ _ _ _ [log_line addr req]). reflexivity.
  - apply (closes_error_response _ _ _ _ [log_line addr req]). reflexivity.
  - apply (closes_error_response _ _ _ _ [log_line addr req; Open _]). reflexivity.
  - apply closes_served. reflexivity.
Qed.

Lemma output_final (sock : descriptor) (t : trace) :
  output sock (t ++ [Close sock; Exit 0])%list = output sock t.
Proof. rewrite output_app. cbn [output]. apply append_nil_r. Qed.

End ClosingFacts.

(** C6. The handler closes the client socket exactly once on every path:
    the [close] and the [exit] that follows it end every trace, and nothing
    before them closes the socket.  When the first [read] returns zero or
    less, these two events are the whole trace: nothing is written. *)
Theorem handle_client_closes_once
    (fs : filesystem) (n : Z) (addr : string) (incoming : pending)
    (stack_req : HTTPRequest) :
  let t := handle_client fs (Socket n) addr incoming stack_req in
  closes (Socket n) t = 1%nat
  /\ (exists before : trace,
        t = (before ++ [Close (Socket n); Exit 0])%list
        /\ closes (Socket n) before = O)
  /\ (fst (received incoming) <= 0 ->
      t = [Close (Socket n); Exit 0] /\ output (Socket n) t = EmptyString).
Proof.
  intros t. subst t.
  destruct (handle_client_handled fs (Socket n) addr incoming stack_req)
    as (status & before & Hh & ->).
  pose proof (handled_closes _ _ _ _ _ _ _ Hh) as Hc.
  split; [|split].
  - rewrite closes_app, Hc. cbn [closes descriptor_eqb]. now rewrite Z.eqb_refl.
  - exists before. split; [reflexivity | exact Hc].
  - intros Hle. destruct Hh; try lia. split; reflexivity.
Qed.

Lemma handle_client_closes_once_witness :
  let fs : filesystem := fun _ => None in
  let req := mkHTTPRequest EmptyString EmptyString EmptyString in
  fst (received RecvError) <= 0
  /\ handle_client fs (Socket 4) "127.0.0.1" RecvError req = [Close (Socket 4); Exit 0]
  /\ fst (received (RecvData EmptyString)) <= 0
  /\ handle_client fs (Socket 4) "127.0.0.1" (RecvData EmptyString) req
     = [Close (Socket 4); Exit 0].
Proof.
  intros fs req.
  assert (H1 : fst (received RecvError) <= 0) by (vm_compute; discriminate).
  assert (H2 : fst (received (RecvData EmptyString)) <= 0) by (vm_compute; discriminate).
  split; [exact H1|]. split.
  - exact (proj1 (proj2 (proj2
      (handle_client_closes_once fs 4 "127.0.0.1" RecvError req)) H1)).
  - split; [exact H2|].
    exact (proj1 (proj2 (proj2
      (handle_client_closes_once fs 4 "127.0.0.1" (RecvData EmptyString) req)) H2)).
Defined.

(** C7. Every run of the handler is one path of the state machine, and the
    status code read from the bytes on the socket is the one of that path:
    none when nothing was received, else 400, 501, 403, 404 or 200.  So a
    code on the wire is one of these five, never 500; and a request that
    parses with a method other than [GET] gets 501. *)
Theorem handle_client_status_codes
    (fs : filesystem) (sock : descriptor) (addr : string) (incoming : pending)
    (stack_req : HTTPRequest) :
  let out := output sock (handle_client fs sock addr incoming stack_req) in
  (exists (status : option Z) (t : trace),
      handled fs sock addr incoming stack_req status t
      /\ handle_client fs sock addr incoming stack_req = (t ++ [Close sock; Exit 0])%list
      /\ status_code out = status)
  /\ (status_code out = None -> out = EmptyString)
  /\ (forall code : Z, status_code out = Some code -> In code status_codes)
  /\ status_code out <> Some 500
  /\ (forall req : HTTPRequest,
        0 < fst (received incoming) ->
        request incoming stack_req = Some req ->
        method req <> "GET" ->
        status_code out = Some 501).
Proof.
  intros out. subst out.
  destruct (handle_client_handled fs sock addr incoming stack_req)
    as (status & t & Hh & ->).
  rewrite output_final.
  pose proof (handled_status_code _ _ _ _ _ _ _ Hh) as Hs.
  pose proof (handled_status_codes _ _ _ _ _ _ _ Hh) as Hin.
  split; [exists status, t; auto|].
  rewrite Hs. split; [|split; [|split]].
  - intros ->. now rewrite Hin.
  - intros code ->. exact Hin.
  - intros ->. unfold status_codes in Hin. simpl in Hin.
    repeat (destruct Hin as [Hin | Hin]; [discriminate|]). exact Hin.
  - intros req Hpos Hreq Hm. destruct Hh; try lia; try congruence.
Qed.

Lemma handle_client_status_codes_witness :
  let fs : filesystem := fun _ => None in
  let req0 := mkHTTPRequest EmptyString EmptyString EmptyString in
  let incoming := RecvData ("POST /x HTTP/1.1" ++ CRLF ++ CRLF) in
  let req := mkHTTPRequest "POST" "/x" "HTTP/1.1" in
  0 < fst (received incoming)
  /\ request incoming req0 = Some req
  /\ method req <> "GET"
  /\ status_code (output (Socket 4) (handle_client fs (Socket 4) "127.0.0.1" incoming req0))
     = Some 501.
Proof.
  intros fs req0 incoming req.
  assert (H1 : 0 < fst (received incoming)) by (vm_compute; reflexivity).
  assert (H2 : request incoming req0 = Some req) by (vm_compute; reflexivity).
  assert (H3 : method req <> "GET") by discriminate.
  split; [exact H1|]. split; [exact H2|]. split; [exact H3|].
  exact (proj2 (proj2 (proj2 (proj2
    (handle_client_status_codes fs (Socket 4) "127.0.0.1" incoming req0))))
    req H1 H2 H3).
Defined.

(** ** Content-Length *)




(** ** The error pages *)

(** C10. Each of the four error responses is written with content type
    [text/html] and a body that holds the status code and the message as
    they are, the message twice; the same holds for any message of up to
    200 characters, whatever its characters.  A request for a path that
    cannot be opened gets the 404 page, in which [404] and [Not Found]
    occur. *)
Theorem send_error_page (sock : descriptor) :
  (forall (code : Z) (message : string),
      (In (code, message) error_pages \/ (String.length message <= 200)%nat) ->
      let page := ("<html><body><h1>" ++ decimal code ++ " " ++ message
                   ++ "</h1><p>" ++ message ++ "</p></body></html>")%string in
      send_error sock code message
      = [Write sock (response_head code message "text/html" (Z.of_nat (strlen page)));
         Write sock page])
  /\ (forall (fs : filesystem) (filepath : string),
      ~ contains ".." filepath ->
      (String.length filepath <= 255)%nat ->
      fs (resolve filepath) = None ->
      let out := output sock (serve_file fs sock filepath) in
      status_code out = Some 404
      /\ body out = Some "<html><body><h1>404 Not Found</h1><p>Not Found</p></body></html>"
      /\ (forall page, body out = Some page ->
          contains "404" page /\ contains "Not Found" page)).
Proof.
  split.
  - intros code message H page.
    assert (Hlen : (String.length message <= 200)%nat).
    { destruct H as [H | H]; [|exact H].
      unfold error_pages in H. simpl in H.
      repeat (destruct H as [[= <- <-] | H]; [simpl; lia|]). contradiction. }
    exact (send_error_verbatim sock code message Hlen).
  - intros fs filepath Hc Hl Hf out. subst out.
    rewrite (serve_file_not_found fs sock filepath Hc Hl Hf).
    rewrite output_open_cons, output_error_response.
    destruct (read_back_error_page 404 "Not Found") as (Hs & _ & Hb);
      [simpl; tauto|].
    split; [exact Hs|]. split; [exact Hb|].
    intros page Hp. rewrite Hb in Hp. injection Hp as <-. split.
    + exists "<html><body><h1>", " Not Found</h1><p>Not Found</p></body></html>".
      reflexivity.
    + exists "<html><body><h1>404 ", "</h1><p>Not Found</p></body></html>".
      reflexivity.
Qed.

Lemma send_error_page_witness :
  let fs : filesystem := fun _ => None in
  In (404, "Not Found") error_pages
  /\ send_error (Socket 4) 404 "Not Found"
     = [Write (Socket 4)
          (response_head 404 "Not Found" "text/html"
             (Z.of_nat (strlen "<html><body><h1>404 Not Found</h1><p>Not Found</p></body></html>")));
        Write (Socket 4) "<html><body><h1>404 Not Found</h1><p>Not Found</p></body></html>"]
  /\ ~ contains ".." "/missing.html"
  /\ (String.length "/missing.html" <= 255)%nat
  /\ fs (resolve "/missing.html") = None
  /\ status_code (output (Socket 4) (serve_file fs (Socket 4) "/missing.html")) = Some 404.
Proof.
  intros fs.
  assert (Hin : In (404, "Not Found") error_pages) by (simpl; tauto).
  assert (Hc : ~ contains ".." "/missing.html") by (apply strstr_null; reflexivity).
  assert (Hl : (String.length "/missing.html" <= 255)%nat) by (simpl; lia).
  split; [exact Hin|]. split.
  - exact (proj1 (send_error_page (Socket 4)) 404 "Not Found" (or_introl Hin)).
  - split; [exact Hc|]. split; [exact Hl|]. split; [reflexivity|].
    exact (proj1 (proj2 (send_error_page (Socket 4)) fs "/missing.html" Hc Hl eq_refl)).
Defined.

(** ** The request line *)

Section LineFacts.

Lemma all_chars_impl (p q : ascii -> bool) (s : string) :
  (forall c, p c = true -> q c = true) ->
  all_chars p s = true -> all_chars q s = true.
Proof.
  intros Hpq. induction s as [|c s IH]; simpl; [reflexivity|].
  intros H. apply andb_true_iff in H. destruct H as [Hc Hs].
  now rewrite (Hpq c Hc), IH.
Qed.

Lemma c_str_append (a b : string) :
  all_chars (fun c => negb (c =? NUL)%char) a = true ->
  c_str (a ++ b) = (a ++ c_str b)%string.
Proof.
  induction a as [|c a IH]; simpl; [reflexivity|].
  intros H. apply andb_true_iff in H. destruct H as [Hc Ha].
  apply negb_true_iff in Hc. now rewrite Hc, IH.
Qed.

Lemma skip_members_append (set a b : string) :
  all_chars (fun c => member c set) a = true ->
  skip_members set (a ++ b) = skip_members set b.
Proof.
  induction a as [|c a IH]; simpl; [reflexivity|].
  intros H. apply andb_true_iff in H. destruct H as [Hc Ha].
  now rewrite Hc, IH.
Qed.


Lemma member_CRLF_not_NUL (c : ascii) :
  member c CRLF = true -> negb (c =? NUL)%char = true.
Proof.
  unfold CRLF. simpl. intros H. apply orb_true_iff in H.
  destruct H as [H | H]; [|apply orb_true_iff in H; destruct H as [H | H]];
    try discriminate; apply Ascii.eqb_eq in H; subst c; reflexivity.
Qed.


Lemma received_data (bytes : string) :
  (String.length bytes < BUFFER_SIZE)%nat ->
  received (RecvData bytes) = (Z.of_nat (String.length bytes), bytes).
Proof.
  intros H. unfold received, read_socket, strlen.
  rewrite take_all by lia. reflexivity.
Qed.



End LineFacts.




(** * Further properties of the code *)

(** ** The request parser *)

Section ParserProperties.

Lemma skip_space_head (s : string) (c : ascii) (rest : string) :
  skip_space s = String c rest -> isspace c = false.
Proof.
  induction s as [|a s IH]; simpl; [discriminate|].
  destruct (isspace a) eqn:E; [exact IH|].
  intros [= <- _]. exact E.
Qed.

Lemma scan_word_no_space (width : nat) :
  forall (s word left : string),
    scan_word width s = (word, left) ->
    all_chars (fun c => negb (isspace c)) word = true.
Proof.
  induction width as [|width IH]; intros s word left H; simpl in H.
  - now injection H as <- _.
  - destruct s as [|c s]; [now injection H as <- _|].
    destruct (isspace c) eqn:E; [now injection H as <- _|].
    destruct (scan_word width s) as [w l] eqn:Es.
    injection H as <- _. simpl. rewrite E. simpl. exact (IH s w l Es).
Qed.

(** A successful [%Ns] conversion, with a positive width, stores a word. *)
Lemma conv_s_word (width : nat) (s word left : string) :
  (0 < width)%nat -> conv_s width s = Some (word, left) -> is_word word.
Proof.
  intros Hw. unfold conv_s.
  destruct (skip_space s) as [|c rest] eqn:E; [discriminate|].
  intros [= H]. split.
  - destruct width as [|width]; [lia|].
    simpl in H. rewrite (skip_space_head s c rest E) in H.
    destruct (scan_word width rest). injection H as <- _. discriminate.
  - exact (scan_word_no_space width _ _ _ H).
Qed.

End ParserProperties.

(** X1. When the first three white-space separated tokens of a line fit
    their fields, the parser succeeds and the request holds exactly these
    tokens, whatever the white space around them, whatever tokens follow,
    and whatever the structure held before. *)
Theorem parse_http_request_takes_first_three_tokens
    (line M P V : string) (more : list string) (req0 : HTTPRequest) :
  tokens line = M :: P :: V :: more ->
  (String.length M <= 15)%nat ->
  (String.length P <= 255)%nat ->
  (String.length V <= 15)%nat ->
  parse_http_request line req0 = (0, mkHTTPRequest M P V).
Proof. exact (parse_http_request_fitting line M P V more req0). Qed.

Lemma parse_http_request_takes_first_three_tokens_witness :
  let line := String HT "GET   /a.html HTTP/1.1  Host:  x " in
  let req0 := mkHTTPRequest "old" "old" "old" in
  tokens line = ["GET"; "/a.html"; "HTTP/1.1"; "Host:"; "x"]
  /\ parse_http_request line req0 = (0, mkHTTPRequest "GET" "/a.html" "HTTP/1.1").
Proof.
  intros line req0.
  assert (Ht : tokens line = ["GET"; "/a.html"; "HTTP/1.1"; "Host:"; "x"]) by reflexivity.
  split; [exact Ht|].
  apply (parse_http_request_takes_first_three_tokens line _ _ _ _ req0 Ht);
    simpl; lia.
Defined.

(** X2. A line with fewer than three tokens, where the tokens present fit
    the method and path fields, is rejected with -1. *)
Theorem parse_http_request_rejects_short_line (line : string) (req0 : HTTPRequest) :
  (List.length (tokens line) < 3)%nat ->
  (String.length (nth 0 (tokens line) EmptyString) <= 15)%nat ->
  (String.length (nth 1 (tokens line) EmptyString) <= 255)%nat ->
  fst (parse_http_request line req0) = -1.
Proof. exact (parse_http_request_too_few line req0). Qed.

Lemma parse_http_request_rejects_short_line_witness :
  let req0 := mkHTTPRequest EmptyString EmptyString EmptyString in
  (List.length (tokens "GET /index.html") < 3)%nat
  /\ fst (parse_http_request "GET /index.html" req0) = -1.
Proof.
  intros req0.
  assert (Hn : (List.length (tokens "GET /index.html") < 3)%nat) by (simpl; lia).
  split; [exact Hn|].
  apply (parse_http_request_rejects_short_line "GET /index.html" req0 Hn);
    simpl; lia.
Defined.

(** X3. A request the parser accepts fits the arrays of [HTTPRequest] with
    their terminators, and each of its fields is a non-empty word without
    white space. *)
Theorem parse_http_request_fields (line : string) (req0 req : HTTPRequest) :
  parse_http_request line req0 = (0, req) ->
  fits_buffers req
  /\ is_word (method req) /\ is_word (path req) /\ is_word (version req).
Proof.
  intros H.
  destruct (parse_http_request_limits line req0 req H) as (Hm & Hp & Hv).
  split; [unfold fits_buffers; lia|].
  revert H. unfold parse_http_request, sscanf_request.
  destruct (conv_s 15 line) as [[m l1]|] eqn:E1; [|discriminate].
  destruct (conv_s 255 (skip_space l1)) as [[p l2]|] eqn:E2; [|discriminate].
  destruct (conv_s 15 (skip_space l2)) as [[v l3]|] eqn:E3; [|discriminate].
  intros [= <-]. simpl.
  repeat split; eapply conv_s_word; try eassumption; lia.
Qed.

Lemma parse_http_request_fields_witness :
  let req0 := mkHTTPRequest EmptyString EmptyString EmptyString in
  let req := mkHTTPRequest "GET" "/" "HTTP/1.1" in
  parse_http_request "GET / HTTP/1.1" req0 = (0, req)
  /\ fits_buffers req
  /\ is_word (method req) /\ is_word (path req) /\ is_word (version req).
Proof.
  intros req0 req.
  assert (H : parse_http_request "GET / HTTP/1.1" req0 = (0, req)) by reflexivity.
  split; [exact H|].
  exact (parse_http_request_fields "GET / HTTP/1.1" req0 req H).
Defined.

(** X4. On a line that is empty or holds only white space [sscanf] reports
    end of input: the parser returns -1 and leaves the structure as it
    was. *)
Theorem parse_http_request_blank_line (line : string) (req0 : HTTPRequest) :
  all_chars isspace line = true ->
  parse_http_request line req0 = (-1, req0).
Proof.
  intros H. unfold parse_http_request, sscanf_request, conv_s.
  assert (Hs : skip_space line = EmptyString).
  { induction line as [|c line IH]; [reflexivity|].
    simpl in *. apply andb_true_iff in H. destruct H as [Hc Hl].
    rewrite Hc. now apply IH. }
  now rewrite Hs.
Qed.

Lemma parse_http_request_blank_line_witness :
  let req0 := mkHTTPRequest "m" "p" "v" in
  all_chars isspace (String HT "  ") = true
  /\ parse_http_request (String HT "  ") req0 = (-1, req0)
  /\ parse_http_request EmptyString req0 = (-1, req0).
Proof.
  intros req0. split; [reflexivity|]. split.
  - exact (parse_http_request_blank_line (String HT "  ") req0 eq_refl).
  - exact (parse_http_request_blank_line EmptyString req0 eq_refl).
Defined.

(** ** The connection handler *)

Section HandlerProperties.

Variable fs : filesystem.
Variable sock : descriptor.
Variable addr : string.

Lemma take_take (n : nat) (s : string) : take n (take n s) = take n s.
Proof. apply take_all. apply length_take_le. Qed.

(** The handler sees the connection through its first [read] only. *)
Lemma handle_client_read (i1 i2 : pending) (r : HTTPRequest) :
  read_socket i1 (BUFFER_SIZE - 1) = read_socket i2 (BUFFER_SIZE - 1) ->
  handle_client fs sock addr i1 r = handle_client fs sock addr i2 r.
Proof. intros H. unfold handle_client. now rewrite H. Qed.

(** Once bytes were received, the handler depends on the request only. *)
Lemma handle_client_dispatch (incoming : pending) (r req : HTTPRequest) :
  0 < fst (received incoming) ->
  request incoming r = Some req ->
  handle_client fs sock addr incoming r
  = (log_line addr req
     :: (if strcmp (method req) "GET" =? 0
         then serve_file fs sock (path req)
         else send_error sock 501 "Not Implemented")
     ++ [Close sock; Exit 0])%list.
Proof.
  unfold handle_client, request, request_line, received.
  destruct (read_socket incoming (BUFFER_SIZE - 1)) as [bytes_read data].
  cbn [fst snd]. intros Hpos.
  assert (E : (bytes_read >? 0) = true) by (apply Z.gtb_lt; lia). rewrite E.
  destruct (strtok (data ++ String NUL EmptyString) CRLF) as [line|]; [|discriminate].
  destruct (parse_http_request line r) as [rc q].
  destruct (rc =? 0); [|discriminate].
  intros [= ->]. reflexivity.
Qed.

Lemma request_none_without_data (incoming : pending) (r : HTTPRequest) :
  fst (received incoming) <= 0 -> request incoming r = None.
Proof.
  unfold request, request_line, received, read_socket.
  destruct incoming as [|bytes]; cbn [fst snd]; [reflexivity|].
  unfold strlen. destruct (take (BUFFER_SIZE - 1) bytes) as [|c rest];
    [reflexivity|].
  cbn [String.length]. lia.
Qed.

Lemma printed_app (t1 t2 : trace) :
  printed (t1 ++ t2)%list = (printed t1 ++ printed t2)%list.
Proof.
  induction t1 as [|e t1 IH]; simpl; [reflexivity|].
  destruct e; try exact IH. simpl. now rewrite IH.
Qed.

Lemma printed_stream_file (fd : descriptor) (count : nat) (data : string) :
  printed (stream_file fd count data) = [].
Proof.
  funelim (stream_file fd count data); [reflexivity|].
  rewrite printed_app. unfold write. simpl. auto.
Qed.

Lemma printed_error_response (fd : descriptor) (code : Z) (message : string) :
  printed (error_response fd code message) = [].
Proof. reflexivity. Qed.

Lemma opened_error_response (fd : descriptor) (code : Z) (message : string) :
  opened (error_response fd code message) = [].
Proof. reflexivity. Qed.

End HandlerProperties.

(** X5. The handler reads at most [BUFFER_SIZE - 1] bytes: whatever the
    peer sent beyond them has no effect on what the handler does. *)
Theorem handle_client_ignores_bytes_beyond_buffer
    (fs : filesystem) (sock : descriptor) (addr : string) (bytes : string)
    (stack_req : HTTPRequest) :
  handle_client fs sock addr (RecvData bytes) stack_req
  = handle_client fs sock addr (RecvData (take (BUFFER_SIZE - 1) bytes)) stack_req.
Proof.
  apply handle_client_read. unfold read_socket. now rewrite take_take.
Qed.

(** X6. What the handler does for a parsed request is decided by the
    method and the path alone: two connections whose requests agree on
    them get the same trace, whatever the version token, the rest of the
    request line, and the header lines and body that follow. *)
Theorem handle_client_depends_on_method_and_path
    (fs : filesystem) (sock : descriptor) (addr : string)
    (i1 i2 : pending) (r1 r2 q1 q2 : HTTPRequest) :
  0 < fst (received i1) ->
  0 < fst (received i2) ->
  request i1 r1 = Some q1 ->
  request i2 r2 = Some q2 ->
  method q1 = method q2 ->
  path q1 = path q2 ->
  handle_client fs sock addr i1 r1 = handle_client fs sock addr i2 r2.
Proof.
  intros H1 H2 E1 E2 Hm Hp.
  rewrite (handle_client_dispatch fs sock addr i1 r1 q1 H1 E1).
  rewrite (handle_client_dispatch fs sock addr i2 r2 q2 H2 E2).
  unfold log_line. now rewrite Hm, Hp.
Qed.

Lemma handle_client_depends_on_method_and_path_witness :
  let fs : filesystem :=
    fun p => if (p =? "./index.html")%string then Some (mkFile 5 "hello") else None in
  let r := mkHTTPRequest EmptyString EmptyString EmptyString in
  let i1 := RecvData ("GET / HTTP/1.1" ++ CRLF ++ CRLF) in
  let i2 := RecvData ("GET / HTTP/0.9 more" ++ CRLF ++ "Host: example" ++ CRLF ++ CRLF) in
  request i1 r = Some (mkHTTPRequest "GET" "/" "HTTP/1.1")
  /\ request i2 r = Some (mkHTTPRequest "GET" "/" "HTTP/0.9")
  /\ handle_client fs (Socket 4) "127.0.0.1" i1 r
     = handle_client fs (Socket 4) "127.0.0.1" i2 r.
Proof.
  intros fs r i1 i2.
  assert (E1 : request i1 r = Some (mkHTTPRequest "GET" "/" "HTTP/1.1"))
    by (vm_compute; reflexivity).
  assert (E2 : request i2 r = Some (mkHTTPRequest "GET" "/" "HTTP/0.9"))
    by (vm_compute; reflexivity).
  split; [exact E1|]. split; [exact E2|].
  assert (H1 : 0 < fst (received i1)) by (vm_compute; reflexivity).
  assert (H2 : 0 < fst (received i2)) by (vm_compute; reflexivity).
  exact (handle_client_depends_on_method_and_path fs (Socket 4) "127.0.0.1"
           i1 i2 r r _ _ H1 H2 E1 E2 eq_refl eq_refl).
Defined.

(** X7. The handler logs exactly the requests that parse, one line each,
    made of the peer address, the method and the path; a connection
    without data or with a request line that does not parse logs
    nothing. *)
Theorem handle_client_log
    (fs : filesystem) (sock : descriptor) (addr : string) (incoming : pending)
    (stack_req : HTTPRequest) :
  printed (handle_client fs sock addr incoming stack_req)
  = match request incoming stack_req with
    | Some req =>
        [("[" ++ addr ++ "] " ++ method req ++ " " ++ path req
          ++ String LF EmptyString)%string]
    | None => []
    end.
Proof.
  destruct (handle_client_handled fs sock addr incoming stack_req)
    as (status & t & Hh & ->).
  rewrite printed_app. cbn [printed]. rewrite app_nil_r.
  destruct Hh as [Hle | ? Hq | req ? Hq | req ? Hq | req ? Hq | req f ? Hq].
  - now rewrite (request_none_without_data incoming stack_req Hle).
  - now rewrite Hq.
  - now rewrite Hq.
  - now rewrite Hq.
  - now rewrite Hq.
  - rewrite Hq. unfold log_line. cbn [printed].
    now rewrite printed_app, printed_stream_file.
Qed.

(** X8. Whenever the first [read] delivers at least one byte, a response
    is written, with one of the five status codes; when it delivers
    nothing, no byte is written. *)
Theorem handle_client_always_responds
    (fs : filesystem) (sock : descriptor) (addr : string) (incoming : pending)
    (stack_req : HTTPRequest) :
  let out := output sock (handle_client fs sock addr incoming stack_req) in
  (0 < fst (received incoming) ->
   exists code : Z, status_code out = Some code /\ In code status_codes)
  /\ (fst (received incoming) <= 0 -> out = EmptyString).
Proof.
  intros out. subst out.
  destruct (handle_client_handled fs sock addr incoming stack_req)
    as (status & t & Hh & ->).
  rewrite output_final, (handled_status_code _ _ _ _ _ _ _ Hh).
  pose proof (handled_status_codes _ _ _ _ _ _ _ Hh) as Hin.
  split.
  - intros Hpos. destruct Hh; try lia; eexists; split; try reflexivity; exact Hin.
  - intros Hle. destruct Hh; try lia. reflexivity.
Qed.

Lemma handle_client_always_responds_witness :
  let fs : filesystem := fun _ => None in
  let r := mkHTTPRequest EmptyString EmptyString EmptyString in
  let incoming := RecvData (String NUL EmptyString) in
  0 < fst (received incoming)
  /\ (exists code : Z,
        status_code (output (Socket 4)
                       (handle_client fs (Socket 4) "127.0.0.1" incoming r))
        = Some code /\ In code status_codes)
  /\ fst (received RecvError) <= 0
  /\ output (Socket 4) (handle_client fs (Socket 4) "127.0.0.1" RecvError r)
     = EmptyString.
Proof.
  intros fs r incoming.
  assert (H1 : 0 < fst (received incoming)) by (vm_compute; reflexivity).
  assert (H2 : fst (received RecvError) <= 0) by (vm_compute; discriminate).
  split; [exact H1|]. split.
  - exact (proj1 (handle_client_always_responds fs (Socket 4) "127.0.0.1" incoming r) H1).
  - split; [exact H2|].
    exact (proj2 (handle_client_always_responds fs (Socket 4) "127.0.0.1" RecvError r) H2).
Defined.

(** X9. The handler hands a path to [open] only for a parsed [GET]
    request whose path has no [..], and then exactly one: the resolved
    path.  No other request opens a file. *)
Theorem handle_client_opens
    (fs : filesystem) (sock : descriptor) (addr : string) (incoming : pending)
    (stack_req : HTTPRequest) :
  opened (handle_client fs sock addr incoming stack_req)
  = match request incoming stack_req with
    | Some req =>
        if (method req =? "GET")%string
        then match strstr (path req) ".." with
             | Some _ => []
             | None => [resolve (path req)]
             end
        else []
    | None => []
    end.
Proof.
  destruct (handle_client_handled fs sock addr incoming stack_req)
    as (status & t & Hh & ->).
  rewrite opened_app. cbn [opened]. rewrite app_nil_r.
  destruct Hh as [Hle | ? Hq | req ? Hq Hm | req ? Hq Hm Hc
                  | req ? Hq Hm Hc Hf | req f ? Hq Hm Hc Hf].
  - now rewrite (request_none_without_data incoming stack_req Hle).
  - now rewrite Hq.
  - rewrite Hq. apply String.eqb_neq in Hm. now rewrite Hm.
  - rewrite Hq, Hm. cbn [String.eqb]. 
    destruct (strstr (path req) "..") eqn:E; [reflexivity|].
    apply strstr_null in E. contradiction.
  - rewrite Hq, Hm. apply strstr_null in Hc. now rewrite Hc.
  - rewrite Hq, Hm. apply strstr_null in Hc. rewrite Hc.
    unfold log_line. cbn [opened]. now rewrite opened_app, opened_stream_file.
Qed.

Section TokenProperties.

Lemma c_str_no_nul (buf : string) :
  all_chars (fun c => negb (c =? NUL)%char) (c_str buf) = true.
Proof.
  induction buf as [|c buf IH]; simpl; [reflexivity|].
  destruct (c =? NUL)%char eqn:E; simpl; [reflexivity|]. now rewrite E.
Qed.

Lemma c_str_nul_append (a b : string) : c_str (a ++ String NUL b) = c_str a.
Proof.
  induction a as [|c a IH]; simpl; [reflexivity|].
  destruct (c =? NUL)%char; [reflexivity | now rewrite IH].
Qed.

Lemma length_c_str (buf : string) : (String.length (c_str buf) <= String.length buf)%nat.
Proof.
  induction buf as [|c buf IH]; simpl; [lia|].
  destruct (c =? NUL)%char; simpl; lia.
Qed.

Lemma skip_members_all (p : ascii -> bool) (set s : string) :
  all_chars p s = true -> all_chars p (skip_members set s) = true.
Proof.
  induction s as [|c s IH]; simpl; [reflexivity|].
  intros H. destruct (member c set); [|exact H].
  apply andb_true_iff in H. now apply IH.
Qed.

Lemma skip_members_head (set s : string) (c : ascii) (rest : string) :
  skip_members set s = String c rest -> member c set = false.
Proof.
  induction s as [|a s IH]; simpl; [discriminate|].
  destruct (member a set) eqn:E; [exact IH|].
  intros [= <- _]. exact E.
Qed.

Lemma length_skip_members (set s : string) :
  (String.length (skip_members set s) <= String.length s)%nat.
Proof.
  induction s as [|c s IH]; simpl; [lia|].
  destruct (member c set); simpl; lia.
Qed.

Lemma until_member_all (p : ascii -> bool) (set s : string) :
  all_chars p s = true -> all_chars p (until_member set s) = true.
Proof.
  induction s as [|c s IH]; simpl; [reflexivity|].
  intros H. apply andb_true_iff in H. destruct H as [Hc Hs].
  destruct (member c set); simpl; [reflexivity|]. now rewrite Hc, IH.
Qed.

Lemma until_member_clean (set s : string) :
  all_chars (fun c => negb (member c set)) (until_member set s) = true.
Proof.
  induction s as [|c s IH]; simpl; [reflexivity|].
  destruct (member c set) eqn:E; simpl; [reflexivity|]. now rewrite E.
Qed.

Lemma length_until_member (set s : string) :
  (String.length (until_member set s) <= String.length s)%nat.
Proof.
  induction s as [|c s IH]; simpl; [lia|].
  destruct (member c set); simpl; lia.
Qed.

Lemma all_chars_both (p q : ascii -> bool) (s : string) :
  all_chars p s = true -> all_chars q s = true ->
  all_chars (fun c => p c && q c) s = true.
Proof.
  induction s as [|c s IH]; simpl; [reflexivity|].
  intros Hp Hq. apply andb_true_iff in Hp. apply andb_true_iff in Hq.
  destruct Hp as [-> Hp], Hq as [-> Hq]. simpl. now apply IH.
Qed.

Lemma length_received (incoming : pending) :
  (String.length (snd (received incoming)) < BUFFER_SIZE)%nat.
Proof.
  pose proof BUFFER_SIZE_positive as Hp.
  unfold received, read_socket. destruct incoming as [|bytes]; cbn [snd].
  - simpl. lia.
  - pose proof (length_take_le (BUFFER_SIZE - 1) bytes). lia.
Qed.

Lemma length_c_str_terminated (data : string) :
  (String.length (c_str (data ++ String NUL EmptyString)) <= String.length data)%nat.
Proof.
  induction data as [|c data IH]; simpl; [lia|].
  destruct (c =? NUL)%char; simpl; lia.
Qed.

(** A token of [strtok]: not empty, free of delimiters and of NUL. *)
Lemma strtok_clean (buf delim line : string) :
  strtok buf delim = Some line ->
  line <> EmptyString
  /\ all_chars (fun c => negb (member c delim)) line = true
  /\ all_chars (fun c => negb (c =? NUL)%char) line = true
  /\ (String.length line <= String.length (c_str buf))%nat.
Proof.
  unfold strtok.
  pose proof (skip_members_all _ delim _ (c_str_no_nul buf)) as Hn.
  pose proof (length_skip_members delim (c_str buf)) as Hs.
  destruct (skip_members delim (c_str buf)) as [|c rest] eqn:E; [discriminate|].
  intros H. assert (Hline : line = until_member delim (String c rest)) by congruence.
  clear H. subst line. split; [|split; [|split]].
  - pose proof (skip_members_head _ _ _ _ E) as Hc.
    cbn [until_member]. rewrite Hc. discriminate.
  - apply until_member_clean.
  - now apply until_member_all.
  - pose proof (length_until_member delim (String c rest)). lia.
Qed.

End TokenProperties.

(** X10. The line the handler passes to the parser is never empty, holds
    no CR, no LF and no NUL, and is shorter than the buffer. *)
Theorem request_line_is_clean (incoming : pending) (line : string) :
  request_line incoming = Some line ->
  line <> EmptyString
  /\ all_chars (fun c => negb (member c CRLF) && negb (c =? NUL)%char) line = true
  /\ (String.length line < BUFFER_SIZE)%nat.
Proof.
  unfold request_line. intros H.
  destruct (strtok_clean _ _ _ H) as (Hne & Hd & Hn & Hl).
  split; [exact Hne|]. split; [now apply all_chars_both|].
  pose proof (length_received incoming) as Hlen.
  pose proof (length_c_str_terminated (snd (received incoming))). lia.
Qed.

Lemma request_line_is_clean_witness :
  let incoming := RecvData (CRLF ++ "GET /" ++ String NUL "tail" ++ CRLF) in
  request_line incoming = Some "GET /"
  /\ "GET /" <> EmptyString
  /\ (String.length "GET /" < BUFFER_SIZE)%nat.
Proof.
  intros incoming.
  assert (H : request_line incoming = Some "GET /") by (vm_compute; reflexivity).
  split; [exact H|].
  pose proof (request_line_is_clean incoming "GET /" H) as [H1 [_ H3]].
  split; [exact H1 | exact H3].
Defined.

(** X11. A connection that delivers only CR and LF characters has no
    request line: the parser is not called and the response is 400. *)
Theorem handle_client_blank_request
    (fs : filesystem) (sock : descriptor) (addr : string) (blanks : string)
    (stack_req : HTTPRequest) :
  blanks <> EmptyString ->
  all_chars (fun c => member c CRLF) blanks = true ->
  (String.length blanks < BUFFER_SIZE)%nat ->
  request_line (RecvData blanks) = None
  /\ handle_client fs sock addr (RecvData blanks) stack_req
     = (error_response sock 400 "Bad Request" ++ [Close sock; Exit 0])%list.
Proof.
  intros Hne Hb Hlen.
  assert (Hline : request_line (RecvData blanks) = None).
  { unfold request_line. rewrite (received_data blanks Hlen). cbn [snd].
    unfold strtok. rewrite c_str_append.
    - now rewrite (skip_members_append CRLF blanks _ Hb).
    - revert Hb. apply all_chars_impl. exact member_CRLF_not_NUL. }
  split; [exact Hline|].
  destruct (handle_client_handled fs sock addr (RecvData blanks) stack_req)
    as (status & t & Hh & ->).
  assert (Hpos : 0 < fst (received (RecvData blanks))).
  { rewrite (received_data blanks Hlen). cbn [fst].
    destruct blanks; [contradiction | simpl; lia]. }
  assert (Hq : request (RecvData blanks) stack_req = None)
    by (unfold request; now rewrite Hline).
  destruct Hh; try lia; try congruence.
Qed.

Lemma handle_client_blank_request_witness :
  let fs : filesystem := fun _ => None in
  let r := mkHTTPRequest EmptyString EmptyString EmptyString in
  CRLF <> EmptyString
  /\ all_chars (fun c => member c CRLF) CRLF = true
  /\ (String.length CRLF < BUFFER_SIZE)%nat
  /\ handle_client fs (Socket 4) "127.0.0.1" (RecvData CRLF) r
     = (error_response (Socket 4) 400 "Bad Request" ++ [Close (Socket 4); Exit 0])%list.
Proof.
  intros fs r.
  assert (H1 : CRLF <> EmptyString) by discriminate.
  assert (H2 : all_chars (fun c => member c CRLF) CRLF = true) by reflexivity.
  assert (H3 : (String.length CRLF < BUFFER_SIZE)%nat)
    by (unfold BUFFER_SIZE; simpl; lia).
  repeat (split; [assumption|]).
  exact (proj2 (handle_client_blank_request fs (Socket 4) "127.0.0.1" CRLF r H1 H2 H3)).
Defined.

(** X12. A NUL byte ends the request: once a byte before it was received,
    the bytes from the first NUL on have no effect on what the handler
    does. *)
Theorem handle_client_stops_at_nul
    (fs : filesystem) (sock : descriptor) (addr : string) (bytes tail : string)
    (stack_req : HTTPRequest) :
  bytes <> EmptyString ->
  (String.length (bytes ++ String NUL tail) < BUFFER_SIZE)%nat ->
  handle_client fs sock addr (RecvData (bytes ++ String NUL tail)) stack_req
  = handle_client fs sock addr (RecvData bytes) stack_req.
Proof.
  intros Hne Hlen.
  assert (Hlen' : (String.length bytes < BUFFER_SIZE)%nat)
    by (rewrite length_append in Hlen; lia).
  assert (E1 : read_socket (RecvData (bytes ++ String NUL tail)) (BUFFER_SIZE - 1)
               = (Z.of_nat (String.length (bytes ++ String NUL tail)),
                  (bytes ++ String NUL tail)%string))
    by exact (received_data _ Hlen).
  assert (E2 : read_socket (RecvData bytes) (BUFFER_SIZE - 1)
               = (Z.of_nat (String.length bytes), bytes))
    by exact (received_data _ Hlen').
  unfold handle_client. rewrite E1, E2.
  assert (P1 : (Z.of_nat (String.length (bytes ++ String NUL tail)) >? 0) = true).
  { apply Z.gtb_lt. rewrite length_append. destruct bytes; [contradiction|simpl; lia]. }
  assert (P2 : (Z.of_nat (String.length bytes) >? 0) = true).
  { apply Z.gtb_lt. destruct bytes; [contradiction|simpl; lia]. }
  rewrite P1, P2. unfold strtok.
  rewrite append_assoc. cbn [append]. now rewrite !c_str_nul_append.
Qed.

Lemma handle_client_stops_at_nul_witness :
  let fs : filesystem := fun _ => None in
  let r := mkHTTPRequest EmptyString EmptyString EmptyString in
  "GET /a" <> EmptyString
  /\ (String.length ("GET /a" ++ String NUL ".html HTTP/1.1") < BUFFER_SIZE)%nat
  /\ handle_client fs (Socket 4) "127.0.0.1"
       (RecvData ("GET /a" ++ String NUL ".html HTTP/1.1")) r
     = handle_client fs (Socket 4) "127.0.0.1" (RecvData "GET /a") r.
Proof.
  intros fs r.
  assert (H1 : "GET /a" <> EmptyString) by discriminate.
  assert (H2 : (String.length ("GET /a" ++ String NUL ".html HTTP/1.1") < BUFFER_SIZE)%nat)
    by (unfold BUFFER_SIZE; simpl; lia).
  split; [exact H1|]. split; [exact H2|].
  exact (handle_client_stops_at_nul fs (Socket 4) "127.0.0.1" "GET /a"
           ".html HTTP/1.1" r H1 H2).
Defined.

(** ** The file server and the response writer *)

Section FileProperties.

Lemma length_take (n : nat) (s : string) :
  String.length (take n s) = Nat.min n (String.length s).
Proof.
  revert s; induction n as [|n IH]; intros [|c s]; simpl; try reflexivity.
  now rewrite IH.
Qed.




End FileProperties.



(** X14. The file server releases the file it opened: when the file is
    served, its descriptor is closed exactly once, as the last event, and
    the client socket is not closed; when the path is refused or cannot be
    opened, nothing is closed. *)
Theorem serve_file_releases_file
    (fs : filesystem) (n : Z) (filepath : string) :
  (String.length filepath <= 255)%nat ->
  (contains ".." filepath ->
   forall fd, closes fd (serve_file fs (Socket n) filepath) = O)
  /\ (~ contains ".." filepath -> fs (resolve filepath) = None ->
      forall fd, closes fd (serve_file fs (Socket n) filepath) = O)
  /\ (~ contains ".." filepath ->
      forall f, fs (resolve filepath) = Some f ->
      closes (FileDescr (resolve filepath)) (serve_file fs (Socket n) filepath) = 1%nat
      /\ closes (Socket n) (serve_file fs (Socket n) filepath) = O
      /\ exists before : trace,
           serve_file fs (Socket n) filepath
           = (before ++ [Close (FileDescr (resolve filepath))])%list).
Proof.
  intros Hl. split; [|split].
  - intros Hc fd. rewrite (serve_file_forbidden fs _ filepath Hc).
    apply (closes_error_response fd _ _ _ []). reflexivity.
  - intros Hc Hf fd. rewrite (serve_file_not_found fs _ filepath Hc Hl Hf).
    apply (closes_error_response fd _ _ _ [Open _]). reflexivity.
  - intros Hc f Hf. rewrite (serve_file_found fs _ filepath f Hc Hl Hf).
    set (head := response_head 200 "OK" (get_mime_type (resolve filepath)) (st_size f)).
    set (copy := stream_file (Socket n) BUFFER_SIZE (content f)).
    set (fd := FileDescr (resolve filepath)).
    assert (E : (Open (resolve filepath) :: Write (Socket n) head :: (copy ++ [Close fd]))%list
                = (([Open (resolve filepath); Write (Socket n) head] ++ copy)
                   ++ [Close fd])%list)
      by (rewrite <- app_assoc; exact eq_refl).
    rewrite E. clear E. split; [|split].
    + rewrite !closes_app. unfold copy. rewrite closes_stream_file.
      unfold fd. cbn [closes descriptor_eqb Nat.add]. now rewrite String.eqb_refl.
    + rewrite !closes_app. unfold copy. rewrite closes_stream_file.
      unfold fd. exact eq_refl.
    + eexists. exact eq_refl.
Qed.

Lemma serve_file_releases_file_witness :
  let fs : filesystem :=
    fun p => if (p =? "./index.html")%string then Some (mkFile 5 "hello") else None in
  (String.length "/" <= 255)%nat
  /\ ~ contains ".." "/"
  /\ closes (FileDescr "./index.html") (serve_file fs (Socket 4) "/") = 1%nat.
Proof.
  intros fs.
  assert (Hl : (String.length "/" <= 255)%nat) by (simpl; lia).
  assert (Hc : ~ contains ".." "/") by (apply strstr_null; reflexivity).
  split; [exact Hl|]. split; [exact Hc|].
  exact (proj1 (proj2 (proj2 (serve_file_releases_file fs 4 "/" Hl))
                  Hc (mkFile 5 "hello") eq_refl)).
Defined.

(** X15. When the status text and the content type leave room in the
    512-byte header buffer, the response writer writes the complete header
    block, with the given length as [Content-Length], and then the first
    [content_length] bytes of the content, in this order and in two
    writes. *)
Theorem send_response_writes_head_and_body
    (fd : descriptor) (code : Z) (text ctype content : string) (len : nat) :
  (String.length text + String.length ctype <= 400)%nat ->
  send_response fd code text ctype content len
  = [Write fd (response_head code text ctype (Z.of_nat len));
     Write fd (take len content)]
  /\ (len = strlen content ->
      output fd (send_response fd code text ctype content len)
      = (response_head code text ctype (Z.of_nat len) ++ content)%string).
Proof.
  intros H.
  assert (E : send_response fd code text ctype content len
              = [Write fd (response_head code text ctype (Z.of_nat len));
                 Write fd (take len content)]).
  { unfold send_response, write.
    pose proof (length_decimal code) as Hc.
    pose proof (length_decimal (Z.of_nat len)) as Hn.
    fold (response_head code text ctype (Z.of_nat len)).
    rewrite snprintf_fits.
    - unfold strlen. rewrite take_all by lia. reflexivity.
    - unfold response_head. rewrite !length_append.
      generalize dependent (decimal (Z.of_nat len)).
      generalize dependent (decimal code). intros d1 Hd1 d2 Hd2.
      simpl. lia. }
  split; [exact E|].
  intros ->. rewrite E, !output_write_cons. cbn [output].
  unfold strlen. rewrite take_all by lia. now rewrite append_nil_r.
Qed.

Lemma send_response_writes_head_and_body_witness :
  (String.length "OK" + String.length "text/css" <= 400)%nat
  /\ send_response (Socket 4) 200 "OK" "text/css" "a{}" 3
     = [Write (Socket 4) (response_head 200 "OK" "text/css" 3);
        Write (Socket 4) "a{}"].
Proof.
  assert (H : (String.length "OK" + String.length "text/css" <= 400)%nat)
    by (simpl; lia).
  split; [exact H|].
  exact (proj1 (send_response_writes_head_and_body (Socket 4) 200 "OK" "text/css"
                  "a{}" 3 H)).
Defined.

(** X16. The traversal test looks at the request path, the path opened is
    that path behind a dot.  A request path that begins with [./] and holds
    no [..] passes the test, and the file opened is [../] followed by the
    rest: a file in the parent directory of the document root, which is
    served when it exists. *)
Theorem serve_file_dot_slash_opens_parent
    (fs : filesystem) (sock : descriptor) (rest : string) (f : file) :
  ~ contains ".." ("./" ++ rest) ->
  (String.length rest <= 253)%nat ->
  fs ("../" ++ rest)%string = Some f ->
  opened (serve_file fs sock ("./" ++ rest)) = [("../" ++ rest)%string]
  /\ output sock (serve_file fs sock ("./" ++ rest))
     = (response_head 200 "OK" (get_mime_type ("../" ++ rest)) (st_size f)
        ++ content f)%string.
Proof.
  intros Hc Hl Hf.
  assert (Hlen : (String.length ("./" ++ rest) <= 255)%nat) by (simpl; lia).
  change ("../" ++ rest)%string with (resolve ("./" ++ rest)) in Hf |- *.
  rewrite (serve_file_found fs sock ("./" ++ rest) f Hc Hlen Hf). split.
  - cbn [opened]. now rewrite opened_app, opened_stream_file.
  - rewrite output_open_cons, output_write_cons, output_app.
    rewrite (output_stream_file _ _ _ BUFFER_SIZE_positive).
    cbn [output]. now rewrite append_nil_r.
Qed.

Lemma serve_file_dot_slash_opens_parent_witness :
  let fs : filesystem :=
    fun p => if (p =? "../secret.txt")%string then Some (mkFile 3 "key") else None in
  ~ contains ".." ("./" ++ "secret.txt")
  /\ (String.length "secret.txt" <= 253)%nat
  /\ opened (serve_file fs (Socket 4) ("./" ++ "secret.txt")) = ["../secret.txt"]
  /\ output (Socket 4) (serve_file fs (Socket 4) ("./" ++ "secret.txt"))
     = (response_head 200 "OK" "text/plain" 3 ++ "key")%string.
Proof.
  intros fs.
  assert (Hc : ~ contains ".." ("./" ++ "secret.txt")) by (apply strstr_null; reflexivity).
  assert (Hl : (String.length "secret.txt" <= 253)%nat) by (simpl; lia).
  split; [exact Hc|]. split; [exact Hl|].
  exact (serve_file_dot_slash_opens_parent fs (Socket 4) "secret.txt"
           (mkFile 3 "key") Hc Hl eq_refl).
Defined.

(** X17. A dot that is followed by a slash further on is the dot of a
    directory name or of the leading [./]: what follows it is no entry of
    the table, and the type is [text/plain].  So a file without a dot in
    its own name is served as [text/plain], whatever dots its directories
    have. *)
Theorem get_mime_type_dot_in_directory (stem ext : string) :
  member DOT ext = false ->
  member "/"%char ext = true ->
  get_mime_type (stem ++ String DOT ext) = "text/plain".
Proof.
  intros Hd Hs. rewrite (get_mime_type_extension stem ext Hd).
  unfold mime_of_extension, mime_table, lookup.
  repeat match goal with
         | |- context [(ext =? ?k)%string] =>
             destruct (String.eqb_spec ext k) as [-> | _]; [discriminate Hs|]
         end.
  reflexivity.
Qed.

Lemma get_mime_type_dot_in_directory_witness :
  member DOT "html/README" = false
  /\ member "/"%char "html/README" = true
  /\ get_mime_type ("./v1" ++ String DOT "html/README") = "text/plain"
  /\ get_mime_type (EmptyString ++ String DOT "/LICENSE") = "text/plain".
Proof.
  split; [reflexivity|]. split; [reflexivity|]. split.
  - exact (get_mime_type_dot_in_directory "./v1" "html/README" eq_refl eq_refl).
  - exact (get_mime_type_dot_in_directory EmptyString "/LICENSE" eq_refl eq_refl).
Defined.
